(** * Elara: lowering and evaluation of the command tree

    A shallow embedding of [interpreter/command.go] (the [Command] tree, its
    [Exec] methods and the lowering functions [ToCommand] and
    [ExpressionToCommand]), of the scanner of [lexer/scanner.go], and of the
    parts of the interpreter the command tree relies on (values, types, the
    [Context] environment, function invocation, the batch driver).

    Go pointers into mutable structures are modelled by references into an
    explicit [Store]; Go panics and host run-time faults are modelled by an
    [Abort] outcome that records the store at the point of failure. *)

From stdpp Require Import gmap strings list fin_maps.
From Stdlib Require Import ZArith Ascii Floats.PrimFloat.

Set Warnings "-register-all".

Open Scope string_scope.
Open Scope list_scope.

(** ** Values, types, functions and commands *)

(** References into the store: a [*Context] and a [*Variable]. *)
Definition CtxRef := nat.
Definition VarRef := nat.

(** [lexer.TokenType], as far as [ExpressionToCommand] switches on the
    operator of a [parser.BinaryExpr]: the four token types that have a case,
    and any other one. *)
Inductive Operator : Set :=
  | Add | Subtract | Multiply | Slash | OtherOperator.

(** The four closures [ExpressionToCommand] stores in the [op] field of a
    [BinaryOperatorCommand].  A Go closure over [*Value] cannot occur inside
    the command tree it is part of, so the field holds the tag of the closure
    and [apply_op] below holds the closures' bodies. *)
Inductive BinaryRule : Set :=
  | AddRule | SubtractRule | MultiplyRule | SlashRule.

(** The command tree of [command.go] together with the value model it
    embeds: a [LiteralCommand] holds a [Value], a [Value] holds a [*Type] and
    a dynamically typed payload, a function payload holds its body command,
    and a [Type] holds the table of its member functions.

    [Type], [Parameter], [Parameters] and [Variable] are reserved words
    here, hence [Type_], [Parameter_], [Params] and [Variable_].
    [AbstractCommand] wraps an arbitrary host closure and is never built by
    the lowering; it is left out.

    Modelled from the spec: the declarations of [Type], [Value], [Function],
    [Signature] and [Parameter] are not part of command.go; their fields are
    those command.go reads and writes ([Type.Name], [Type.functions],
    [Value.Type], [Value.Value], [Function.Signature], [Function.Body],
    [Signature.Parameters], [Signature.ReturnType], [Parameter.Type],
    [Parameter.Name]).  The spec's invocation rule speaks of "the function's
    defining (lexical) Context"; [defining] is that reference.  The struct
    literal of [ExpressionToCommand] sets only [Signature] and [Body], so a
    lowered function literal has no defining context. *)
Inductive Type_ : Type :=
  | MkType (Name : string) (functions : gmap string Function)
with Function : Type :=
  | MkFunction (Sig : Signature) (Body : Command) (defining : option CtxRef)
with Signature : Type :=
  | MkSignature (Params : list Parameter_) (ReturnType : Type_)
with Parameter_ : Type :=
  | MkParameter (Ty : Type_) (Name : string)
with Payload : Type :=
  | PInt (i : Z)            (* int64 *)
  | PFloat (f : float)      (* float64 *)
  | PBool (b : bool)
  | PString (s : string)
  | PFunction (f : Function)
with Value : Type :=
  | MkValue (Ty : Type_) (Val : Payload)
with Command : Type :=
  | DefineVarCommand (Name : string) (Mutable : bool) (Ty : Type_) (value : Command)
  | AssignmentCommand (Name : string) (value : Command)
  | VariableCommand (Var : string)
  | InvocationCommand (Invoking : Command) (args : list Command)
  | LiteralCommand (value : Value)
  | BinaryOperatorCommand (lhs : Command) (op : BinaryRule) (rhs : Command)
  | BlockCommand (lines : list Command)
  | ContextCommand (receiver : Command) (variable : string)
  | IfElseCommand (condition ifBranch : Command) (elseBranch : option Command).

Definition typeName (t : Type_) : string :=
  match t with MkType n _ => n end.
Definition typeFunctions (t : Type_) : gmap string Function :=
  match t with MkType _ fs => fs end.
Definition valueType (v : Value) : Type_ :=
  match v with MkValue t _ => t end.
Definition valuePayload (v : Value) : Payload :=
  match v with MkValue _ p => p end.
Definition funcSignature (f : Function) : Signature :=
  match f with MkFunction sg _ _ => sg end.
Definition funcBody (f : Function) : Command :=
  match f with MkFunction _ b _ => b end.
Definition funcDefining (f : Function) : option CtxRef :=
  match f with MkFunction _ _ d => d end.
Definition sigParameters (sg : Signature) : list Parameter_ :=
  match sg with MkSignature ps _ => ps end.
Definition paramName (p : Parameter_) : string :=
  match p with MkParameter _ n => n end.

(** ** The type system *)

(** Modelled from the spec: the well-known types command.go refers to
    ([AnyType], [IntType], [FloatType], [BooleanType], [StringType]) are
    declared outside command.go.  Each is a named type; no member function of
    a built-in type is relied upon, so their tables are empty. *)
Definition AnyType : Type_ := MkType "Any" ∅.
Definition IntType : Type_ := MkType "Int" ∅.
Definition FloatType : Type_ := MkType "Float" ∅.
Definition BooleanType : Type_ := MkType "Boolean" ∅.
Definition StringType : Type_ := MkType "String" ∅.

(** Modelled from the spec: [Type.Accepts] is not part of command.go.
    "Type A accepts Value of Type B iff B is nominally the same Type as A, or
    A is the universal Any Type." *)
Definition Accepts (a b : Type_) : bool :=
  String.eqb (typeName a) (typeName AnyType)
  || String.eqb (typeName a) (typeName b).

(** Modelled from the spec: [FunctionType] is not part of command.go.  "A
    FunctionType is a derived Type created per function value solely so the
    function can be carried as a typed Value": a type without members, named
    after the member when a name is given. *)
Definition FunctionType (name : option string) (f : Function) : Type_ :=
  MkType (default "Function" name) ∅.

(** The registry of named types behind [FromASTType]. *)
Definition types : gmap string Type_ :=
  {[ "Any" := AnyType; "Int" := IntType; "Float" := FloatType;
     "Boolean" := BooleanType; "String" := StringType ]}.

(** [interpreter.IntValue] and [interpreter.FloatValue], used by the tests. *)
Definition IntValue (i : Z) : Value := MkValue IntType (PInt i).
Definition FloatValue (f : float) : Value := MkValue FloatType (PFloat f).

(** ** Contexts and the store *)

(** A [Variable] as [DefineVarCommand.Exec] builds it.  [Value] is a
    [*Value]: it may be nil. *)
Record Variable_ : Type := mkVariable {
  varName : string;
  varMutable : bool;
  varType : Type_;
  varValue : option Value
}.

(** Modelled from the spec: [Context] is not part of command.go.  "A frame
    holding a mapping from variable name to Variable, a mapping from parameter
    name to Value (for the active call), and an optional reference to a parent
    Context for lookup fallback only"; a frame also holds "the special receiver
    binding".  Variables are held by pointer, since [AssignmentCommand.Exec]
    writes through the pointer [FindVariable] returns. *)
Record Context : Type := mkContext {
  variables : gmap string VarRef;
  parameters : gmap string (option Value);
  ctxReceiver : option Value;
  parent : option CtxRef
}.

(** Everything the evaluator can reach through a pointer: the context frames
    and the variable cells.  Nothing is ever freed. *)
Record Store : Type := mkStore {
  contexts : list Context;
  cells : list Variable_
}.

Definition emptyContext (p : option CtxRef) : Context :=
  {| variables := ∅; parameters := ∅; ctxReceiver := None; parent := p |}.

(** [NewContext]: allocate a frame; the reference of the new frame is the
    number of frames allocated before it. *)
Definition allocContext (fr : Context) (s : Store) : CtxRef * Store :=
  (length (contexts s),
   {| contexts := contexts s ++ [fr]; cells := cells s |}).

Definition bindVariable (name : string) (r : VarRef) (fr : Context) : Context :=
  {| variables := <[name := r]> (variables fr);
     parameters := parameters fr;
     ctxReceiver := ctxReceiver fr;
     parent := parent fr |}.

(** Modelled from the spec: [Context.DefineVariable].  "Create a new Variable
    in the current Context frame"; a redefinition in the same frame
    overwrites the binding.  The variable gets a fresh cell. *)
Definition DefineVariable (ctx : CtxRef) (name : string) (v : Variable_)
    (s : Store) : Store :=
  {| contexts := alter (bindVariable name (length (cells s))) ctx (contexts s);
     cells := cells s ++ [v] |}.

(** Upward walk through the frames, "stop at the first match or the root".
    The walk visits at most as many frames as the store holds. *)
Fixpoint walk {A : Type} (look : Context -> option A) (frames : list Context)
    (steps : nat) (ctx : CtxRef) : option A :=
  match steps with
  | O => None
  | S k =>
      match frames !! ctx with
      | None => None
      | Some fr =>
          match look fr with
          | Some a => Some a
          | None =>
              match parent fr with
              | Some p => walk look frames k p
              | None => None
              end
          end
      end
  end.

(** Modelled from the spec: [Context.FindVariable], "lookup (upward through
    parents)".  The result is the pointer together with the variable it
    points to; nil is [None]. *)
Definition FindVariable (s : Store) (ctx : CtxRef) (name : string)
    : option (VarRef * Variable_) :=
  walk (fun fr => r ← variables fr !! name; v ← cells s !! r; Some (r, v))
       (contexts s) (length (contexts s)) ctx.

(** Modelled from the spec: [Context.FindParameter], the parameter bindings
    of the active call, found by the same upward lookup.  A parameter bound
    to nil is returned as nil. *)
Definition FindParameter (s : Store) (ctx : CtxRef) (name : string)
    : option Value :=
  mjoin (walk (fun fr => parameters fr !! name)
              (contexts s) (length (contexts s)) ctx).

(** [variable.Value = value] through a [*Variable]. *)
Definition setValue (v : option Value) (x : Variable_) : Variable_ :=
  {| varName := varName x; varMutable := varMutable x;
     varType := varType x; varValue := v |}.

Definition assignCell (r : VarRef) (v : option Value) (s : Store) : Store :=
  {| contexts := contexts s; cells := alter (setValue v) r (cells s) |}.

(** ** Outcomes *)

(** The error kinds of the spec.  command.go raises each by a [panic] with a
    message; the kind stands for the panic site:
    - [TypeMismatch]: "Cannot use value of type ..." and "Cannot reassign
      variable ... to value ...";
    - [UndefinedVariable]: "No such variable ..." and "No such variable or
      parameter ...";
    - [ImmutableAssignment]: "Cannot reassign immutable variable ...";
    - [NotInvokable]: "Cannot invoke non-function";
    - [UndefinedMember]: "No such variable ... on type ...";
    - [OperandTypeError]: "LHS must be an int64", "RHS must be an int64";
    - [ConditionTypeError]: "If statement requires boolean value";
    - [UnsupportedNode]: "Could not handle ...";
    - [InvocationError]: the arity check of a function invocation. *)
Inductive ErrorKind : Set :=
  | SyntaxError | TypeMismatch | UndefinedVariable | UndefinedParameter
  | UndefinedMember | ImmutableAssignment | NotInvokable | OperandTypeError
  | ConditionTypeError | UnsupportedNode | InvocationError.

(** What stops a run: a panic of the interpreter, or a fault of the host
    run time (a nil pointer dereference, an integer division by zero). *)
Inductive Abort : Set :=
  | Panic (k : ErrorKind)
  | NilDereference
  | DivideByZero.

(** An evaluation that ends either returns a result or is aborted; in both
    cases the store is the one reached at that point. *)
Inductive Outcome (A : Type) : Type :=
  | Return (a : A) (s : Store)
  | Aborted (e : Abort) (s : Store).
Arguments Return {A} a s.
Arguments Aborted {A} e s.

(** A computation over the store.  [None] means that the recursion bound of
    the evaluator was reached before the computation ended. *)
Definition Eval (A : Type) : Type := Store -> option (Outcome A).

Definition ret {A : Type} (a : A) : Eval A :=
  fun s => Some (Return a s).

Definition abort {A : Type} (e : Abort) : Eval A :=
  fun s => Some (Aborted e s).

Definition panic {A : Type} (k : ErrorKind) : Eval A := abort (Panic k).

Definition bind {A B : Type} (m : Eval A) (k : A -> Eval B) : Eval B :=
  fun s =>
    match m s with
    | None => None
    | Some (Return a s') => k a s'
    | Some (Aborted e s') => Some (Aborted e s')
    end.

Definition get : Eval Store := fun s => Some (Return s s).

Definition modify (f : Store -> Store) : Eval unit :=
  fun s => Some (Return tt (f s)).

(** Allocation of a frame, as a computation. *)
Definition NewContext (fr : Context) : Eval CtxRef :=
  fun s => Some (Return (allocContext fr s).1 (allocContext fr s).2).

Notation "'let*' x ':=' m 'in' k" := (bind m (fun x => k))
  (at level 10, x name, m at level 100, k at level 200).

(** ** Dynamically typed payloads *)

(** Go's checked type assertions [v.(int64)], [v.(bool)] and [v.(Function)]
    on the payload of a value: the asserted value when the payload carries
    that tag, and [ok = false] otherwise. *)
Definition asInt64 (p : Payload) : option Z :=
  match p with PInt i => Some i | _ => None end.

Definition asBool (p : Payload) : option bool :=
  match p with PBool b => Some b | _ => None end.

Definition asFunction (p : Payload) : option Function :=
  match p with PFunction f => Some f | _ => None end.

(** The type assertion of [c.Invoking] to a pointer to a [ContextCommand]. *)
Definition asContextCommand (c : Command) : option (Command * string) :=
  match c with ContextCommand r v => Some (r, v) | _ => None end.

(** ** Integer arithmetic of the host *)

(** An [int64] is a [Z] in the range of [wrap64]; Go's [+], [-] and [*] on
    [int64] wrap around. *)
Definition wrap64 (z : Z) : Z := ((z + 2 ^ 63) mod 2 ^ 64 - 2 ^ 63)%Z.

Definition IntResult (z : Z) : option Value :=
  Some (MkValue IntType (PInt (wrap64 z))).

(** The last line of each of the four [op] closures.  [/] on [int64]
    truncates toward zero and faults on a zero divisor. *)
Definition arith (op : BinaryRule) (lhsInt rhsInt : Z) : Eval (option Value) :=
  match op with
  | AddRule => ret (IntResult (lhsInt + rhsInt))
  | SubtractRule => ret (IntResult (lhsInt - rhsInt))
  | MultiplyRule => ret (IntResult (lhsInt * rhsInt))
  | SlashRule =>
      if Z.eqb rhsInt 0 then abort DivideByZero
      else ret (IntResult (Z.quot lhsInt rhsInt))
  end.

(** The bodies of the four [op] closures of [ExpressionToCommand].  All four
    read [lhs.Value], assert it to [int64], then read [rhs.Value] and assert
    it to [int64]; they differ in the last line. *)
Definition apply_op (op : BinaryRule) (lhs rhs : option Value)
    : Eval (option Value) :=
  match lhs with
  | None => abort NilDereference
  | Some l =>
      match asInt64 (valuePayload l) with
      | None => panic OperandTypeError
      | Some lhsInt =>
          match rhs with
          | None => abort NilDereference
          | Some r =>
              match asInt64 (valuePayload r) with
              | None => panic OperandTypeError
              | Some rhsInt => arith op lhsInt rhsInt
              end
          end
      end
  end.

(** ** The evaluator *)

Section Exec.

(** [Exec] on the sub-commands: the evaluator at the remaining recursion
    depth. *)
Variable exec : Command -> CtxRef -> Eval (option Value).

(** The argument commands of an invocation, evaluated from left to right
    against the caller's context. *)
Fixpoint execArgs (args : list Command) (ctx : CtxRef)
    : Eval (list (option Value)) :=
  match args with
  | [] => ret []
  | arg :: rest =>
      let* v := exec arg ctx in
      let* vs := execArgs rest ctx in
      ret (v :: vs)
  end.

Definition bindParameters (ps : list Parameter_) (vs : list (option Value))
    : gmap string (option Value) :=
  foldl (fun m pv => <[paramName pv.1 := pv.2]> m) ∅ (zip ps vs).

(** Modelled from the spec: [Function.Exec] is not part of command.go.
    "Creates a fresh Context frame whose parameter bindings map each
    Parameter name to its corresponding evaluated argument Value,
    positionally, with arity checked (mismatched argument count is a fatal
    invocation error); when a receiver is present it is made available as
    the special receiver binding of that frame.  The frame's parent is the
    function's defining (lexical) Context, not the caller's Context.  The
    body Command is evaluated in this frame; its result becomes the call's
    result."  command.go passes the caller's context and the argument
    commands, so the arguments are evaluated here. *)
Definition Function_Exec (f : Function) (ctx : CtxRef)
    (receiver : option Value) (args : list Command) : Eval (option Value) :=
  let ps := sigParameters (funcSignature f) in
  if negb (Nat.eqb (length args) (length ps)) then panic InvocationError
  else
    let* vs := execArgs args ctx in
    let* context := NewContext {| variables := ∅;
                                  parameters := bindParameters ps vs;
                                  ctxReceiver := receiver;
                                  parent := funcDefining f |} in
    exec (funcBody f) context.

(** [func (c DefineVarCommand) Exec]. *)
Definition DefineVarCommand_Exec (name : string) (mutable : bool)
    (ty : Type_) (value : Command) (ctx : CtxRef) : Eval (option Value) :=
  let* value := exec value ctx in
  match value with
  | None => abort NilDereference
  | Some v =>
      if negb (Accepts ty (valueType v)) then panic TypeMismatch
      else
        let variable := {| varName := name; varMutable := mutable;
                           varType := ty; varValue := Some v |} in
        let* _ := modify (DefineVariable ctx name variable) in
        ret None
  end.

(** [func (c *AssignmentCommand) Exec].  [variable] is a pointer; its
    [Mutable] and [Type] fields are never written after the variable has
    been created, so the [Type] read after the value has been evaluated is
    the one the variable had when it was found. *)
Definition AssignmentCommand_Exec (name : string) (value : Command)
    (ctx : CtxRef) : Eval (option Value) :=
  let* s := get in
  match FindVariable s ctx name with
  | None => panic UndefinedVariable
  | Some (ref, variable) =>
      if negb (varMutable variable) then panic ImmutableAssignment
      else
        let* value := exec value ctx in
        match value with
        | None => abort NilDereference
        | Some v =>
            if negb (Accepts (varType variable) (valueType v))
            then panic TypeMismatch
            else
              let* _ := modify (assignCell ref (Some v)) in
              ret None
        end
  end.

(** [func (c *VariableCommand) Exec]. *)
Definition VariableCommand_Exec (name : string) (ctx : CtxRef)
    : Eval (option Value) :=
  let* s := get in
  match FindVariable s ctx name with
  | None =>
      match FindParameter s ctx name with
      | None => panic UndefinedVariable
      | Some param => ret (Some param)
      end
  | Some (_, variable) => ret (varValue variable)
  end.

(** [func (c *InvocationCommand) Exec]. *)
Definition InvocationCommand_Exec (invoking : Command) (args : list Command)
    (ctx : CtxRef) : Eval (option Value) :=
  let* val := exec invoking ctx in
  match val with
  | None => abort NilDereference
  | Some val =>
      match asFunction (valuePayload val) with
      | None => panic NotInvokable
      | Some fn =>
          match asContextCommand invoking with
          | None => Function_Exec fn ctx None args
          | Some (contextReceiver, contextVariable) =>
              let* receiver := exec contextReceiver ctx in
              match receiver with
              | None => abort NilDereference
              | Some receiver =>
                  match typeFunctions (valueType receiver) !! contextVariable with
                  | None => panic UndefinedMember
                  | Some function =>
                      let* exec_ := exec contextReceiver ctx in
                      Function_Exec function ctx exec_ args
                  end
              end
          end
      end
  end.

(** [func (c *LiteralCommand) Exec]. *)
Definition LiteralCommand_Exec (value : Value) (ctx : CtxRef)
    : Eval (option Value) :=
  ret (Some value).

(** [func (c *BinaryOperatorCommand) Exec]. *)
Definition BinaryOperatorCommand_Exec (lhs : Command) (op : BinaryRule)
    (rhs : Command) (ctx : CtxRef) : Eval (option Value) :=
  let* lhs := exec lhs ctx in
  let* rhs := exec rhs ctx in
  apply_op op lhs rhs.

(** The loop of [func (c *BlockCommand) Exec]: [last] is the result of the
    line executed last. *)
Fixpoint execLines (lines : list Command) (ctx : CtxRef)
    (last : option Value) : Eval (option Value) :=
  match lines with
  | [] => ret last
  | line :: rest =>
      let* v := exec line ctx in execLines rest ctx v
  end.

Definition BlockCommand_Exec (lines : list Command) (ctx : CtxRef)
    : Eval (option Value) :=
  execLines lines ctx None.

(** [func (c *ContextCommand) Exec]. *)
Definition ContextCommand_Exec (receiver : Command) (variable : string)
    (ctx : CtxRef) : Eval (option Value) :=
  let* receiver := exec receiver ctx in
  match receiver with
  | None => abort NilDereference
  | Some receiver =>
      match typeFunctions (valueType receiver) !! variable with
      | None => panic UndefinedMember
      | Some function =>
          ret (Some (MkValue (FunctionType (Some variable) function)
                             (PFunction function)))
      end
  end.

(** [func (c *IfElseCommand) Exec]. *)
Definition IfElseCommand_Exec (condition ifBranch : Command)
    (elseBranch : option Command) (ctx : CtxRef) : Eval (option Value) :=
  let* condition := exec condition ctx in
  match condition with
  | None => abort NilDereference
  | Some condition =>
      match asBool (valuePayload condition) with
      | None => panic ConditionTypeError
      | Some asBoolean =>
          if asBoolean then exec ifBranch ctx
          else
            match elseBranch with
            | Some elseBranch => exec elseBranch ctx
            | None => ret None
            end
      end
  end.

(** Dynamic dispatch of [Command.Exec]. *)
Definition Command_Exec (c : Command) (ctx : CtxRef) : Eval (option Value) :=
  match c with
  | DefineVarCommand name mutable ty value =>
      DefineVarCommand_Exec name mutable ty value ctx
  | AssignmentCommand name value => AssignmentCommand_Exec name value ctx
  | VariableCommand name => VariableCommand_Exec name ctx
  | InvocationCommand invoking args => InvocationCommand_Exec invoking args ctx
  | LiteralCommand value => LiteralCommand_Exec value ctx
  | BinaryOperatorCommand lhs op rhs => BinaryOperatorCommand_Exec lhs op rhs ctx
  | BlockCommand lines => BlockCommand_Exec lines ctx
  | ContextCommand receiver variable => ContextCommand_Exec receiver variable ctx
  | IfElseCommand condition ifBranch elseBranch =>
      IfElseCommand_Exec condition ifBranch elseBranch ctx
  end.

End Exec.

(** [Exec], with [fuel] bounding the depth of nested [Exec] calls: the
    command tree is finite, but a function body may invoke functions without
    end. *)
Fixpoint Exec (fuel : nat) (c : Command) (ctx : CtxRef) : Eval (option Value) :=
  match fuel with
  | O => fun _ => None
  | S n => Command_Exec (Exec n) c ctx
  end.

(** A command evaluates to an outcome when some recursion depth suffices. *)
Definition Evaluates (c : Command) (ctx : CtxRef) (s : Store)
    (o : Outcome (option Value)) : Prop :=
  exists fuel, Exec fuel c ctx s = Some o.

(** A function invocation ends in an outcome when some recursion depth
    suffices for its arguments and its body. *)
Definition Invokes (f : Function) (ctx : CtxRef) (receiver : option Value)
    (args : list Command) (s : Store) (o : Outcome (option Value)) : Prop :=
  exists fuel, Function_Exec (Exec fuel) f ctx receiver args s = Some o.

(** ** The syntax tree and its lowering *)

(** [parser.Type], the type annotation of a definition or a parameter.
    Modelled from the spec: its declaration is not part of command.go, which
    only passes it to [FromASTType]; an annotation names a type. *)
Inductive ASTType : Set :=
  | ElementaryType (Identifier : string).

(** A parameter of a [parser.FuncDefExpr]: command.go reads [Type] and
    [Name]. *)
Record FunctionArgument : Set := mkArgument {
  argType : option ASTType;
  argName : string
}.

(** [parser.Stmt] and [parser.Expr] with the fields command.go reads.  The
    last four expression kinds are node kinds of the spec's data model for
    which [ExpressionToCommand] has no case. *)
Inductive Stmt : Type :=
  | VarDefStmt (Identifier : string) (Mutable : bool) (Ty : option ASTType)
      (Value : Expr)
  | ExpressionStmt (Expr_ : Expr)
  | BlockStmt (Stmts : list Stmt)
  | IfElseStmt (Condition : Expr) (MainBranch : Stmt) (ElseBranch : option Stmt)
with Expr : Type :=
  | VariableExpr (Identifier : string)
  | InvocationExpr (Invoker : Expr) (Args : list Expr)
  | StringLiteralExpr (Value : string)
  | IntegerLiteralExpr (Value : Z)
  | FloatLiteralExpr (Value : float)
  | BooleanLiteralExpr (Value : bool)
  | BinaryExpr (Lhs : Expr) (Op : Operator) (Rhs : Expr)
  | FuncDefExpr (Arguments : list FunctionArgument) (ReturnType : option ASTType)
      (Statement : Stmt)
  | ContextExpr (Context_ : Expr) (Var : string)
  | AssignmentExpr (Identifier : string) (Value : Expr)
  | UnaryExpr (Op : Operator) (Rhs : Expr)
  | CharLiteralExpr (Value : ascii)
  | CollectionExpr (Elements : list Expr)
  | MapExpr (Entries : list (Expr * Expr)).

(** Modelled from the spec: [FromASTType] is not part of command.go.
    "Declared types ... are resolved through the Type system from their AST
    type annotation": a lookup of the annotated name in the registry.  For an
    absent annotation the result is nil, the case [ToCommand] tests for. *)
Definition FromASTType (t : option ASTType) : option Type_ :=
  match t with
  | None => None
  | Some (ElementaryType name) => types !! name
  end.

(** Lowering builds a command or is aborted, by the final [panic] of the two
    functions or by a host fault. *)
Inductive Lowered (A : Type) : Type :=
  | Built (a : A)
  | Failed (e : Abort).
Arguments Built {A} a.
Arguments Failed {A} e.

Definition andThen {A B : Type} (m : Lowered A) (k : A -> Lowered B) : Lowered B :=
  match m with
  | Built a => k a
  | Failed e => Failed e
  end.

Notation "'build' x ':=' m 'in' k" := (andThen m (fun x => k))
  (at level 10, x name, m at level 100, k at level 200).

(** The parameter loop of the [parser.FuncDefExpr] case:
    [params[i] = Parameter{Type: *paramType, Name: parameter.Name}]
    dereferences the result of [FromASTType] as it is. *)
Fixpoint lowerParameters (arguments : list FunctionArgument)
    : Lowered (list Parameter_) :=
  match arguments with
  | [] => Built []
  | parameter :: rest =>
      match FromASTType (argType parameter) with
      | None => Failed NilDereference
      | Some paramType =>
          build params := lowerParameters rest in
          Built (MkParameter paramType (argName parameter) :: params)
      end
  end.

(** The operator switch of the [parser.BinaryExpr] case.  An operator
    without a case leaves the switch, and the function ends in its final
    [panic]. *)
Definition ruleOf (op : Operator) : Lowered BinaryRule :=
  match op with
  | Add => Built AddRule
  | Subtract => Built SubtractRule
  | Multiply => Built MultiplyRule
  | Slash => Built SlashRule
  | _ => Failed (Panic UnsupportedNode)
  end.

(** [ToCommand] and [ExpressionToCommand] of command.go.  In the
    [parser.FuncDefExpr] case the operands of the [Function] literal are
    taken in the order they are written: the dereference of the return type
    comes before the lowering of the body. *)
Fixpoint ToCommand (statement : Stmt) : Lowered Command :=
  match statement with
  | VarDefStmt identifier mutable ty value =>
      let Ty := match FromASTType ty with
                | None => AnyType
                | Some t => t
                end in
      build valueExpr := ExpressionToCommand value in
      Built (DefineVarCommand identifier mutable Ty valueExpr)
  | ExpressionStmt e => ExpressionToCommand e
  | BlockStmt stmts =>
      build commands :=
        (fix each (l : list Stmt) : Lowered (list Command) :=
           match l with
           | [] => Built []
           | stmt :: rest =>
               build c := ToCommand stmt in
               build cs := each rest in
               Built (c :: cs)
           end) stmts in
      Built (BlockCommand commands)
  | IfElseStmt cond mainBranch elseBranch =>
      build condition := ExpressionToCommand cond in
      build ifBranch := ToCommand mainBranch in
      match elseBranch with
      | Some e =>
          build elseBranch := ToCommand e in
          Built (IfElseCommand condition ifBranch (Some elseBranch))
      | None => Built (IfElseCommand condition ifBranch None)
      end
  end
with ExpressionToCommand (expr : Expr) : Lowered Command :=
  match expr with
  | VariableExpr identifier => Built (VariableCommand identifier)
  | InvocationExpr invoker arguments =>
      build fn := ExpressionToCommand invoker in
      build args :=
        (fix each (l : list Expr) : Lowered (list Command) :=
           match l with
           | [] => Built []
           | arg :: rest =>
               build command := ExpressionToCommand arg in
               build cs := each rest in
               Built (command :: cs)
           end) arguments in
      Built (InvocationCommand fn args)
  | StringLiteralExpr str =>
      Built (LiteralCommand (MkValue StringType (PString str)))
  | IntegerLiteralExpr integer =>
      Built (LiteralCommand (MkValue IntType (PInt integer)))
  | FloatLiteralExpr float =>
      Built (LiteralCommand (MkValue FloatType (PFloat float)))
  | BooleanLiteralExpr boolean =>
      Built (LiteralCommand (MkValue BooleanType (PBool boolean)))
  | BinaryExpr lhs op rhs =>
      build lhsCmd := ExpressionToCommand lhs in
      build rhsCmd := ExpressionToCommand rhs in
      build rule := ruleOf op in
      Built (BinaryOperatorCommand lhsCmd rule rhsCmd)
  | FuncDefExpr arguments returnType statement =>
      build params := lowerParameters arguments in
      match FromASTType returnType with
      | None => Failed NilDereference
      | Some returnType =>
          build body := ToCommand statement in
          let fn := MkFunction (MkSignature params returnType) body None in
          Built (LiteralCommand (MkValue (FunctionType None fn) (PFunction fn)))
      end
  | ContextExpr context varName =>
      build contextCmd := ExpressionToCommand context in
      Built (ContextCommand contextCmd varName)
  | AssignmentExpr name value =>
      build valueCmd := ExpressionToCommand value in
      Built (AssignmentCommand name valueCmd)
  | UnaryExpr _ _ | CharLiteralExpr _ | CollectionExpr _ | MapExpr _ =>
      Failed (Panic UnsupportedNode)
  end.

(** ** The scanner *)

(** The token types [scanner.go] returns. *)
Inductive TokenType : Set :=
  | EOF | ILLEGAL
  | LPAREN | RPAREN | LBRACE | RBRACE | LESSER | GREATER
  | DOT | ARROW | EQUAL | EQUALS | ADD
  | LET | MUT | IDENTIFIER | STRING | INT | FLOAT.

(** Runes are modelled by bytes, so the model covers ASCII sources.  The
    reader returns the rune [eof] at the end of the input; the model covers
    sources that do not contain that rune themselves.

    Modelled from the spec: [eof] and the character classes [isWhitespace],
    [isBracket], [isStartOfSymbol], [isOperatorSymbol], [isNumerical] and
    [isValidIdentifier] are not part of scanner.go, and the spec leaves the
    tokenizer out.  Each class holds the characters the function it guards
    deals with: the brackets of [readBracket], the symbols of [readSymbol],
    the characters of the operators of [readOperator], the decimal digits,
    and letters, digits and the underscore for identifiers; white space is
    blank, tab and line feed. *)
Definition eof : ascii := Ascii.zero.

Definition oneOf (chars : string) (ch : ascii) : bool :=
  existsb (Ascii.eqb ch) (String.list_ascii_of_string chars).

Definition lineFeed : ascii := ascii_of_nat 10.
Definition tab : ascii := ascii_of_nat 9.
Definition quote : ascii := ascii_of_nat 34.

Definition isWhitespace (ch : ascii) : bool :=
  Ascii.eqb ch " " || Ascii.eqb ch tab || Ascii.eqb ch lineFeed.

Definition isBracket : ascii -> bool := oneOf "(){}<>".
Definition isStartOfSymbol : ascii -> bool := oneOf ".=".
Definition isOperatorSymbol : ascii -> bool := oneOf "=+".

Definition between (lo hi : nat) (ch : ascii) : bool :=
  Nat.leb lo (nat_of_ascii ch) && Nat.leb (nat_of_ascii ch) hi.

Definition isNumerical : ascii -> bool := between 48 57.

Definition isValidIdentifier (ch : ascii) : bool :=
  between 97 122 ch || between 65 90 ch || between 48 57 ch
  || Ascii.eqb ch "_".

(** What a read function hands back: the token type, the token text and the
    input that remains. *)
Definition Scanned : Set := TokenType * string * string.

(** The loops of [readIdentifier] and [readOperator]: runes are taken while
    they are in the class; the first rune that is not is put back. *)
Fixpoint readWhile (class : ascii -> bool) (input : string) : string * string :=
  match input with
  | EmptyString => (EmptyString, EmptyString)
  | String ch rest =>
      if class ch then
        let '(buf, remaining) := readWhile class rest in (String ch buf, remaining)
      else (EmptyString, input)
  end.

(** [consumeWhitespace], without its count. *)
Definition consumeWhitespace (input : string) : string :=
  (readWhile isWhitespace input).2.

(** The first [buf.WriteRune(s.read())] of the read functions. *)
Definition firstRune (input : string) : ascii * string :=
  match input with
  | EmptyString => (eof, EmptyString)
  | String ch rest => (ch, rest)
  end.

Definition readIdentifier (input : string) : Scanned :=
  let '(ch, rest) := firstRune input in
  let '(buf, remaining) := readWhile isValidIdentifier rest in
  let str := String ch buf in
  if String.eqb str "let" then (LET, str, remaining)
  else if String.eqb str "mut" then (MUT, str, remaining)
  else (IDENTIFIER, str, remaining).

Definition readBracket (input : string) : Scanned :=
  let '(str, rest) := firstRune input in
  let text := String str EmptyString in
  if Ascii.eqb str "(" then (LPAREN, text, rest)
  else if Ascii.eqb str ")" then (RPAREN, text, rest)
  else if Ascii.eqb str "{" then (LBRACE, text, rest)
  else if Ascii.eqb str "}" then (RBRACE, text, rest)
  else if Ascii.eqb str "<" then (LESSER, text, rest)
  else if Ascii.eqb str ">" then (GREATER, text, rest)
  else (ILLEGAL, text, rest).

Definition readSymbol (input : string) : Scanned :=
  let '(ch, rest) := firstRune input in
  let text := String ch EmptyString in
  if Ascii.eqb ch "." then (DOT, text, rest)
  else if Ascii.eqb ch "=" then
    let '(peeked, afterPeeked) := firstRune rest in
    if Ascii.eqb peeked ">" then (ARROW, String ch (String peeked EmptyString), afterPeeked)
    else (EQUAL, text, rest)
  else (ILLEGAL, text, rest).

Definition readOperator (input : string) : Scanned :=
  let '(ch, rest) := firstRune input in
  let '(buf, remaining) := readWhile isOperatorSymbol rest in
  let str := String ch buf in
  if String.eqb str "==" then (EQUALS, str, remaining)
  else if String.eqb str "+" then (ADD, str, remaining)
  else (ILLEGAL, str, remaining).

(** The loop of [readString]: the closing quote is read and dropped. *)
Fixpoint stringLoop (input : string) : string * string :=
  match input with
  | EmptyString => (EmptyString, EmptyString)
  | String ch rest =>
      if Ascii.eqb ch quote then (EmptyString, rest)
      else let '(buf, remaining) := stringLoop rest in (String ch buf, remaining)
  end.

(** [readString] is entered after the opening quote has been read; its
    first rune goes to the buffer whatever it is. *)
Definition readString (input : string) : Scanned :=
  let '(ch, rest) := firstRune input in
  let '(buf, remaining) := stringLoop rest in
  (STRING, String ch buf, remaining).

(** The loop of [readNumber]: a dot turns the token into a [FLOAT]; the rune
    that ends the number has been read and is not put back. *)
Fixpoint numberLoop (input : string) (numType : TokenType) : Scanned :=
  match input with
  | EmptyString => (numType, EmptyString, EmptyString)
  | String ch rest =>
      if Ascii.eqb ch "." then
        let '(t, buf, remaining) := numberLoop rest FLOAT in (t, String ch buf, remaining)
      else if negb (isNumerical ch) then (numType, EmptyString, rest)
      else
        let '(t, buf, remaining) := numberLoop rest numType in (t, String ch buf, remaining)
  end.

Definition readNumber (input : string) : Scanned :=
  let '(ch, rest) := firstRune input in
  let '(t, buf, remaining) := numberLoop rest INT in
  (t, String ch buf, remaining).

(** [Scanner.Read] on a rune that is not white space. *)
Definition readToken (ch : ascii) (rest : string) : Scanned :=
  let input := String ch rest in
  if isBracket ch then readBracket input
  else if isStartOfSymbol ch then readSymbol input
  else if isOperatorSymbol ch then readOperator input
  else if isNumerical ch then readNumber input
  else if Ascii.eqb ch quote then readString rest
  else if isValidIdentifier ch then readIdentifier input
  else (ILLEGAL, String ch EmptyString, rest).

(** [Scanner.Read].  On white space the scanner consumes the run of white
    space and reads again; skipping the run rune by rune is the same. *)
Fixpoint Read (input : string) : Scanned :=
  match input with
  | EmptyString => (EOF, String eof EmptyString, EmptyString)
  | String ch rest =>
      if isWhitespace ch then Read rest else readToken ch rest
  end.

(** A [lexer.Token], without its source position: scanner.go reports no
    line and column. *)
Record Token : Set := mkToken {
  tokenType : TokenType;
  tokenText : string
}.

(** The loop of [lex]: tokens are collected until [EOF].  Every token takes
    at least one rune, so [fuel] runs of the loop suffice for an input of
    less than [fuel] runes. *)
Fixpoint lexLoop (fuel : nat) (input : string) : list Token :=
  match fuel with
  | O => []
  | S n =>
      let '(tok, str, rest) := Read input in
      match tok with
      | EOF => []
      | _ => mkToken tok str :: lexLoop n rest
      end
  end.

(** [lex] of the lexer package. *)
Definition lex (file : option string) (code : string) : list Token :=
  lexLoop (S (String.length code)) code.

(** ** The parser *)

(** The outcome of a parse rule: a node and the tokens after it, or a
    [SyntaxError] "carrying the offending token" ([None] at the end of the
    token sequence).  [Unmodelled] marks a rule of the grammar that this
    model does not cover, and [Exhausted] a recursion bound that was
    reached: in both cases the model determines no parse. *)
Inductive Parsed (A : Type) : Type :=
  | Parse (a : A) (rest : list Token)
  | Syntax (offending : option Token)
  | Unmodelled
  | Exhausted.
Arguments Parse {A} a rest.
Arguments Syntax {A} offending.
Arguments Unmodelled {A}.
Arguments Exhausted {A}.

(** [strconv.ParseInt(text, 10, 64)], as [parseInteger] of
    prefix_parslet.go calls it: the value of a non-empty run of decimal
    digits that fits an [int64]. *)
Definition digitValue (ch : ascii) : option Z :=
  if isNumerical ch then Some (Z.of_nat (nat_of_ascii ch) - 48)%Z else None.

Fixpoint digitsValue (acc : Z) (text : string) : option Z :=
  match text with
  | EmptyString => Some acc
  | String ch rest =>
      match digitValue ch with
      | Some d => digitsValue (acc * 10 + d)%Z rest
      | None => None
      end
  end.

Definition ParseInt (text : string) : option Z :=
  match text with
  | EmptyString => None
  | _ =>
      match digitsValue 0%Z text with
      | Some z => if (z <? 2 ^ 63)%Z then Some z else None
      | None => None
      end
  end.

(** Precedences of the infix table. *)
Definition Lowest : nat := 0.
Definition Sum : nat := 1.
Definition Call : nat := 2.

(** Modelled from the spec: the parser is not part of the sources at hand
    (prefix_parslet.go holds prefix rules of a later token set).  "A table
    mapping token kind to prefix parse rule, and a second table mapping
    token kind to (precedence, infix parse rule)."  The model covers the
    rules for the tokens of scanner.go that stand for identifiers, integers,
    strings and [+]; float literals, grouping and function literals, blocks,
    member access, invocation and assignment are marked [Unmodelled]. *)
Definition prefixRule (tok : Token) (rest : list Token) : Parsed Expr :=
  match tokenType tok with
  | IDENTIFIER => Parse (VariableExpr (tokenText tok)) rest
  | INT =>
      match ParseInt (tokenText tok) with
      | Some value => Parse (IntegerLiteralExpr value) rest
      | None => Syntax (Some tok)
      end
  | STRING => Parse (StringLiteralExpr (tokenText tok)) rest
  | FLOAT | LPAREN | LBRACE => Unmodelled
  | _ => Syntax (Some tok)
  end.

Inductive InfixRule : Set :=
  | BinaryRuleOf (op : Operator)
  | OtherInfix.

Definition infixRule (tok : Token) : option (nat * InfixRule) :=
  match tokenType tok with
  | ADD => Some (Sum, BinaryRuleOf Add)
  | DOT | LPAREN | EQUAL => Some (Call, OtherInfix)
  | _ => None
  end.

(** Modelled from the spec: "[parseExpression(minPrecedence)] consumes one
    prefix rule to obtain a left operand, then repeatedly consumes an infix
    rule for the current token while that token's precedence exceeds
    [minPrecedence]".  [infixLoop] is the repetition; a binary rule parses
    its right operand at the precedence of its operator, which makes the
    operators left-associative. *)
Fixpoint parseExpression (fuel : nat) (minPrecedence : nat)
    (tokens : list Token) : Parsed Expr :=
  match fuel with
  | O => Exhausted
  | S n =>
      match tokens with
      | [] => Syntax None
      | tok :: rest =>
          match prefixRule tok rest with
          | Parse operand rest => infixLoop n minPrecedence operand rest
          | failure => failure
          end
      end
  end
with infixLoop (fuel : nat) (minPrecedence : nat) (operand : Expr)
    (tokens : list Token) : Parsed Expr :=
  match fuel with
  | O => Exhausted
  | S n =>
      match tokens with
      | [] => Parse operand []
      | tok :: rest =>
          match infixRule tok with
          | None => Parse operand tokens
          | Some (precedence, rule) =>
              if Nat.ltb minPrecedence precedence then
                match rule with
                | BinaryRuleOf op =>
                    match parseExpression n precedence rest with
                    | Parse rhs rest =>
                        infixLoop n minPrecedence (BinaryExpr operand op rhs) rest
                    | failure => failure
                    end
                | OtherInfix => Unmodelled
                end
              else Parse operand tokens
          end
      end
  end.

(** Modelled from the spec: the statement grammar, "a var-definition
    ([let]/[let mut], optional type annotation, [=], expression); an
    expression statement".  scanner.go has no token for the colon of an
    annotation, so a definition is parsed without one. *)
Definition parseStatement (fuel : nat) (tokens : list Token) : Parsed Stmt :=
  match tokens with
  | [] => Syntax None
  | tok :: rest =>
      match tokenType tok with
      | LET =>
          let '(mutable, rest) :=
            match rest with
            | m :: rest' =>
                match tokenType m with
                | MUT => (true, rest')
                | _ => (false, rest)
                end
            | [] => (false, rest)
            end in
          match rest with
          | [] => Syntax None
          | name :: rest =>
              match tokenType name with
              | IDENTIFIER =>
                  match rest with
                  | [] => Syntax None
                  | eq :: rest =>
                      match tokenType eq with
                      | EQUAL =>
                          match parseExpression fuel Lowest rest with
                          | Parse value rest =>
                              Parse (VarDefStmt (tokenText name) mutable None value) rest
                          | Syntax t => Syntax t
                          | Unmodelled => Unmodelled
                          | Exhausted => Exhausted
                          end
                      | _ => Syntax (Some eq)
                      end
                  end
              | _ => Syntax (Some name)
              end
          end
      | _ =>
          match parseExpression fuel Lowest tokens with
          | Parse e rest => Parse (ExpressionStmt e) rest
          | Syntax t => Syntax t
          | Unmodelled => Unmodelled
          | Exhausted => Exhausted
          end
      end
  end.

(** The whole program: statements until the token sequence ends. *)
Fixpoint parseProgram (fuel : nat) (tokens : list Token) : Parsed (list Stmt) :=
  match fuel with
  | O => Exhausted
  | S n =>
      match tokens with
      | [] => Parse [] []
      | _ =>
          match parseStatement (2 * length tokens) tokens with
          | Parse stmt rest =>
              match parseProgram n rest with
              | Parse stmts rest => Parse (stmt :: stmts) rest
              | failure => failure
              end
          | Syntax t => Syntax t
          | Unmodelled => Unmodelled
          | Exhausted => Exhausted
          end
      end
  end.

Definition parse (tokens : list Token) : Parsed (list Stmt) :=
  parseProgram (S (length tokens)) tokens.

(** ** Batch execution *)

(** The store of a fresh run: the root context, and its reference. *)
Definition rootStore : Store :=
  (allocContext (emptyContext None) {| contexts := []; cells := [] |}).2.
Definition rootContext : CtxRef := 0%nat.

(** "Lower and evaluate each top-level statement in order against one shared
    root Context, and return an ordered sequence of per-statement result
    Values (each possibly absent/none) in program order." *)
Fixpoint executeStatements (fuel : nat) (stmts : list Stmt) (ctx : CtxRef)
    : Eval (list (option Value)) :=
  match stmts with
  | [] => ret []
  | stmt :: rest =>
      match ToCommand stmt with
      | Failed e => abort e
      | Built command =>
          let* result := Exec fuel command ctx in
          let* results := executeStatements fuel rest ctx in
          ret (result :: results)
      end
  end.

(** Modelled from the spec: [base.Execute], the batch driver, is not part of
    the sources at hand.  "Given optional source-file identity, full source
    text, and a debug flag, the core must: tokenize, parse the full program
    into a sequence of top-level statements, lower and evaluate each
    top-level statement in order against one shared root Context".  A syntax
    error aborts the run before anything is evaluated.  The result is [None]
    where the model determines no outcome: the recursion bound [fuel] was
    reached, or the source uses a rule the parser model does not cover. *)
Definition Execute (fuel : nat) (file : option string) (code : string)
    (debug : bool) : option (Outcome (list (option Value))) :=
  match parse (lex file code) with
  | Parse stmts _ => executeStatements fuel stmts rootContext rootStore
  | Syntax _ => Some (Aborted (Panic SyntaxError) rootStore)
  | Unmodelled | Exhausted => None
  end.

(** ** Sample programs *)

(** Literal commands, as the lowering builds them. *)
Definition intLiteral (i : Z) : Command := LiteralCommand (IntValue i).
Definition floatLiteral (f : float) : Command := LiteralCommand (FloatValue f).
Definition boolLiteral (b : bool) : Command :=
  LiteralCommand (MkValue BooleanType (PBool b)).

(** The source of [TestSimpleVariableDeclaration], with and without the tab
    that indents its second line. *)
Definition simpleVariableDeclaration : string :=
  String.append "let a = 3" (String lineFeed "a").
Definition simpleVariableDeclarationIndented : string :=
  String.append "let a = 3" (String lineFeed (String tab "a")).

(** A type with one member function [f], which takes no argument and returns
    [1], and a value of that type. *)
Definition memberOne : Function :=
  MkFunction (MkSignature [] IntType) (intLiteral 1) None.
Definition receiverType : Type_ := MkType "Receiver" {[ "f" := memberOne ]}.
Definition receiverValue : Value := MkValue receiverType (PString "receiver").

(** A receiver with an effect: it adds one to the variable [n] and then
    yields [receiverValue]. *)
Definition countingReceiver : Command :=
  BlockCommand
    [ AssignmentCommand "n"
        (BinaryOperatorCommand (VariableCommand "n") AddRule (intLiteral 1));
      LiteralCommand receiverValue ].

(** The member call [countingReceiver.f()]. *)
Definition countingMemberCall : Command :=
  InvocationCommand (ContextCommand countingReceiver "f") [].

Definition counter (i : Z) : Variable_ :=
  {| varName := "n"; varMutable := true; varType := AnyType;
     varValue := Some (IntValue i) |}.

(** The root store after [let mut n = 0]. *)
Definition counterStore : Store :=
  DefineVariable rootContext "n" (counter 0) rootStore.

(** The root store after [let a = 1], and a frame below the root in which
    the active call has a parameter [a] bound to [2]. *)
Definition immutableA : Variable_ :=
  {| varName := "a"; varMutable := false; varType := AnyType;
     varValue := Some (IntValue 1) |}.
Definition storeWithA : Store :=
  DefineVariable rootContext "a" immutableA rootStore.
Definition callFrame : Context :=
  {| variables := ∅;
     parameters := {[ "a" := Some (IntValue 2); "p" := Some (IntValue 7) ]};
     ctxReceiver := None;
     parent := Some rootContext |}.
Definition storeInCall : Store := (allocContext callFrame storeWithA).2.
Definition callContext : CtxRef := (allocContext callFrame storeWithA).1.

(** The root store after [let m = receiver.f]. *)
Definition memberValue : Value :=
  MkValue (FunctionType (Some "f") memberOne) (PFunction memberOne).
Definition storeWithMember : Store :=
  DefineVariable rootContext "m"
    {| varName := "m"; varMutable := false; varType := AnyType;
       varValue := Some memberValue |} rootStore.

(** The frame of an invocation of [memberOne] with the given receiver. *)
Definition memberFrame (receiver : option Value) : Context :=
  {| variables := ∅; parameters := ∅; ctxReceiver := receiver;
     parent := None |}.

(** The root store after [let mut i: Int = 0]. *)
Definition intCell : Variable_ :=
  {| varName := "i"; varMutable := true; varType := IntType;
     varValue := Some (IntValue 0) |}.
Definition storeWithI : Store :=
  DefineVariable rootContext "i" intCell rootStore.

(** [if false => 1], a command that produces no value. *)
Definition ifWithoutElse : Command :=
  IfElseCommand (boolLiteral false) (intLiteral 1) None.

(** * Properties *)

(** ** Recursion depth: more fuel never changes an outcome *)

(** [refines m m']: whenever [m] ends, [m'] ends in the same outcome. *)
Definition refines {A : Type} (m m' : Eval A) : Prop :=
  forall s o, m s = Some o -> m' s = Some o.

Definition extends (e e' : Command -> CtxRef -> Eval (option Value)) : Prop :=
  forall c ctx, refines (e c ctx) (e' c ctx).

Lemma refines_refl {A : Type} (m : Eval A) : refines m m.
Proof. intros s o H; exact H. Qed.

Lemma refines_bind {A B : Type} (m m' : Eval A) (k k' : A -> Eval B) :
  refines m m' -> (forall a, refines (k a) (k' a)) ->
  refines (bind m k) (bind m' k').
Proof.
  intros Hm Hk s o. unfold bind.
  destruct (m s) as [[a s1 | e s1] |] eqn:E; [| |discriminate].
  - rewrite (Hm _ _ E). apply Hk.
  - rewrite (Hm _ _ E). trivial.
Qed.

Create HintDb mono.
#[local] Hint Resolve refines_refl : mono.

Section Monotone.

Variables e e' : Command -> CtxRef -> Eval (option Value).
Hypothesis He : extends e e'.

Lemma execArgs_mono args ctx :
  refines (execArgs e args ctx) (execArgs e' args ctx).
Proof.
  induction args as [|a args IH]; simpl; [apply refines_refl|].
  apply refines_bind; [apply He|]. intros v.
  apply refines_bind; [exact IH|]. intros vs. apply refines_refl.
Qed.

Lemma execLines_mono lines ctx last :
  refines (execLines e lines ctx last) (execLines e' lines ctx last).
Proof.
  revert last. induction lines as [|l lines IH]; intros last; simpl;
    [apply refines_refl|].
  apply refines_bind; [apply He | exact IH].
Qed.

Lemma Function_Exec_mono f ctx receiver args :
  refines (Function_Exec e f ctx receiver args)
          (Function_Exec e' f ctx receiver args).
Proof.
  unfold Function_Exec.
  destruct (negb _); auto with mono.
  apply refines_bind; [apply execArgs_mono|]. intros vs.
  apply refines_bind; [apply refines_refl|]. intros c. apply He.
Qed.

Lemma Command_Exec_mono : extends (Command_Exec e) (Command_Exec e').
Proof.
  intros c ctx. destruct c; simpl.
  - unfold DefineVarCommand_Exec.
    apply refines_bind; [apply He|]. intros [v|]; auto with mono.
  - unfold AssignmentCommand_Exec.
    apply refines_bind; [apply refines_refl|]. intros s.
    destruct (FindVariable s ctx Name) as [[ref var]|]; auto with mono.
    destruct (negb (varMutable var)); auto with mono.
    apply refines_bind; [apply He|]. intros [v|]; auto with mono.
  - apply refines_refl.
  - unfold InvocationCommand_Exec.
    apply refines_bind; [apply He|]. intros [v|]; auto with mono.
    destruct (asFunction _) as [fn|]; auto with mono.
    destruct (asContextCommand _) as [[r x]|];
      [|apply Function_Exec_mono].
    apply refines_bind; [apply He|]. intros [rv|]; auto with mono.
    destruct (_ !! _); auto with mono.
    apply refines_bind; [apply He|]. intros ?. apply Function_Exec_mono.
  - apply refines_refl.
  - unfold BinaryOperatorCommand_Exec.
    apply refines_bind; [apply He|]. intros l.
    apply refines_bind; [apply He|]. intros r. apply refines_refl.
  - apply execLines_mono.
  - unfold ContextCommand_Exec.
    apply refines_bind; [apply He|]. intros [rv|]; auto with mono.
  - unfold IfElseCommand_Exec.
    apply refines_bind; [apply He|]. intros [cv|]; auto with mono.
    destruct (asBool _) as [[|]|];
      [apply He | | apply refines_refl].
    destruct elseBranch; [apply He | apply refines_refl].
Qed.

End Monotone.

Lemma Exec_S (n : nat) : extends (Exec n) (Exec (S n)).
Proof.
  induction n as [|n IH].
  - intros c ctx s o H. discriminate H.
  - change (extends (Command_Exec (Exec n)) (Command_Exec (Exec (S n)))).
    apply Command_Exec_mono, IH.
Qed.

Lemma Exec_le (n m : nat) : (n <= m)%nat -> extends (Exec n) (Exec m).
Proof.
  induction 1 as [|m _ IH].
  - intros c ctx. apply refines_refl.
  - intros c ctx s o H. apply Exec_S, IH, H.
Qed.

(** An evaluation has at most one outcome. *)
Lemma Evaluates_deterministic c ctx s o1 o2 :
  Evaluates c ctx s o1 -> Evaluates c ctx s o2 -> o1 = o2.
Proof.
  intros [n1 H1] [n2 H2].
  apply (Exec_le n1 (Nat.max n1 n2)) in H1; [|apply Nat.le_max_l].
  apply (Exec_le n2 (Nat.max n1 n2)) in H2; [|apply Nat.le_max_r].
  congruence.
Qed.

(** One more level of depth: an outcome of the method body, run with an
    evaluator of some depth for the sub-commands, is an outcome of the
    command. *)
Lemma Evaluates_step c ctx s o n :
  Command_Exec (Exec n) c ctx s = Some o -> Evaluates c ctx s o.
Proof. intros H. exists (S n). exact H. Qed.

(** Two evaluations can be run at a common depth. *)
Lemma Exec_common {c1 ctx1 s1 o1 c2 ctx2 s2 o2} :
  Evaluates c1 ctx1 s1 o1 -> Evaluates c2 ctx2 s2 o2 ->
  exists n, Exec n c1 ctx1 s1 = Some o1 /\ Exec n c2 ctx2 s2 = Some o2.
Proof.
  intros [n1 H1] [n2 H2]. exists (Nat.max n1 n2). split.
  - apply (Exec_le n1); [apply Nat.le_max_l | exact H1].
  - apply (Exec_le n2); [apply Nat.le_max_r | exact H2].
Qed.

Lemma Invokes_le f ctx receiver args s o n m :
  (n <= m)%nat ->
  Function_Exec (Exec n) f ctx receiver args s = Some o ->
  Function_Exec (Exec m) f ctx receiver args s = Some o.
Proof. intros Hle. apply Function_Exec_mono, Exec_le, Hle. Qed.

Lemma Evaluates_inv c ctx s o :
  Evaluates c ctx s o -> exists n, Command_Exec (Exec n) c ctx s = Some o.
Proof. intros [[|n] H]; [discriminate H | exists n; exact H]. Qed.

Lemma bind_Some {A B : Type} (m : Eval A) (k : A -> Eval B) s o :
  bind m k s = Some o ->
  exists r, m s = Some r /\
    match r with
    | Return a s' => k a s' = Some o
    | Aborted e s' => o = Aborted e s'
    end.
Proof.
  unfold bind. destruct (m s) as [[a s'|e s']|]; intros H; [| |discriminate].
  - exists (Return a s'). split; [reflexivity | exact H].
  - injection H as <-. exists (Aborted e s'). split; reflexivity.
Qed.

(** The first sub-command of a method body: when it is known to evaluate to
    a result, the body continues with that result. *)
Lemma bind_Evaluates {B : Type} n c ctx s a s1 (k : option Value -> Eval B) o :
  Evaluates c ctx s (Return a s1) ->
  bind (Exec n c ctx) k s = Some o -> k a s1 = Some o.
Proof.
  intros Hc Hb. apply bind_Some in Hb as (r & Hr & Hk).
  assert (r = Return a s1) as ->
    by (eapply Evaluates_deterministic; [exists n; exact Hr | exact Hc]).
  exact Hk.
Qed.

Lemma bind_Exec {B : Type} n c ctx s a s1 (k : option Value -> Eval B) :
  Exec n c ctx s = Some (Return a s1) ->
  bind (Exec n c ctx) k s = k a s1.
Proof. intros H. unfold bind. rewrite H. reflexivity. Qed.

Lemma bind_Exec_aborted {B : Type} n c ctx s e s1 (k : option Value -> Eval B) :
  Exec n c ctx s = Some (Aborted e s1) ->
  bind (Exec n c ctx) k s = Some (Aborted e s1).
Proof. intros H. unfold bind. rewrite H. reflexivity. Qed.

(** ** Variable cells: what an evaluation never changes *)

(** [stable s s']: every cell of [s] is still a cell of [s'], with the name,
    the mutability and the declared type it had. *)
Definition stable (s s' : Store) : Prop :=
  forall r x, cells s !! r = Some x ->
    exists x', cells s' !! r = Some x'
      /\ varName x' = varName x
      /\ varMutable x' = varMutable x
      /\ varType x' = varType x.

Definition finalStore {A : Type} (o : Outcome A) : Store :=
  match o with
  | Return _ s => s
  | Aborted _ s => s
  end.

Definition keeps {A : Type} (m : Eval A) : Prop :=
  forall s o, m s = Some o -> stable s (finalStore o).

Lemma stable_refl s : stable s s.
Proof. intros r x H. exists x. auto. Qed.

Lemma stable_trans s1 s2 s3 : stable s1 s2 -> stable s2 s3 -> stable s1 s3.
Proof.
  intros H12 H23 r x H.
  destruct (H12 r x H) as (x2 & H2 & Hn2 & Hm2 & Ht2).
  destruct (H23 r x2 H2) as (x3 & H3 & Hn3 & Hm3 & Ht3).
  exists x3. repeat split; congruence.
Qed.

Lemma stable_DefineVariable ctx name v s : stable s (DefineVariable ctx name v s).
Proof.
  intros r x H. exists x. simpl. split; [|auto].
  apply lookup_app_l_Some, H.
Qed.

Lemma stable_assignCell ref v s : stable s (assignCell ref v s).
Proof.
  intros r x H. simpl. rewrite list_lookup_alter.
  case_decide; [subst r; rewrite H; exists (setValue v x) | exists x]; auto.
Qed.

Lemma keeps_ret {A : Type} (a : A) : keeps (ret a).
Proof. intros s o [= <-]. apply stable_refl. Qed.

Lemma keeps_abort {A : Type} (e : Abort) : keeps (abort (A := A) e).
Proof. intros s o [= <-]. apply stable_refl. Qed.

Lemma keeps_bind {A B : Type} (m : Eval A) (k : A -> Eval B) :
  keeps m -> (forall a, keeps (k a)) -> keeps (bind m k).
Proof.
  intros Hm Hk s o H. apply bind_Some in H as ([a s'|e s'] & Hr & Ho).
  - eapply stable_trans; [apply (Hm _ _ Hr) | apply (Hk _ _ _ Ho)].
  - subst o. apply (Hm _ _ Hr).
Qed.

Lemma keeps_modify (f : Store -> Store) :
  (forall s, stable s (f s)) -> keeps (modify f).
Proof. intros Hf s o [= <-]. apply Hf. Qed.

#[local] Hint Resolve keeps_ret keeps_abort stable_refl : mono.

Section Stable.

Variable e : Command -> CtxRef -> Eval (option Value).
Hypothesis He : forall c ctx, keeps (e c ctx).

Lemma execArgs_keeps args ctx : keeps (execArgs e args ctx).
Proof.
  induction args as [|a args IH]; simpl; [apply keeps_ret|].
  apply keeps_bind; [apply He|]. intros v.
  apply keeps_bind; [exact IH|]. intros vs. apply keeps_ret.
Qed.

Lemma execLines_keeps lines ctx last : keeps (execLines e lines ctx last).
Proof.
  revert last. induction lines as [|l lines IH]; intros last; simpl;
    [apply keeps_ret|].
  apply keeps_bind; [apply He | exact IH].
Qed.

Lemma Function_Exec_keeps f ctx receiver args :
  keeps (Function_Exec e f ctx receiver args).
Proof.
  unfold Function_Exec.
  destruct (negb _); [apply keeps_abort|].
  apply keeps_bind; [apply execArgs_keeps|]. intros vs.
  apply keeps_bind; [|intros c; apply He].
  intros s o [= <-]. intros r x H. exists x. auto.
Qed.

Lemma Command_Exec_keeps c ctx : keeps (Command_Exec e c ctx).
Proof.
  destruct c; simpl.
  - unfold DefineVarCommand_Exec.
    apply keeps_bind; [apply He|]. intros [v|]; [|apply keeps_abort].
    destruct (negb _); [apply keeps_abort|].
    apply keeps_bind; [|intros; apply keeps_ret].
    apply keeps_modify. intros s. apply stable_DefineVariable.
  - unfold AssignmentCommand_Exec.
    apply keeps_bind; [intros s o [= <-]; apply stable_refl|]. intros s.
    destruct (FindVariable s ctx Name) as [[ref var]|]; [|apply keeps_abort].
    destruct (negb (varMutable var)); [apply keeps_abort|].
    apply keeps_bind; [apply He|]. intros [v|]; [|apply keeps_abort].
    destruct (negb _); [apply keeps_abort|].
    apply keeps_bind; [|intros; apply keeps_ret].
    apply keeps_modify. intros s'. apply stable_assignCell.
  - unfold VariableCommand_Exec.
    apply keeps_bind; [intros s o [= <-]; apply stable_refl|]. intros s.
    destruct (FindVariable s ctx Var) as [[ref var]|]; [apply keeps_ret|].
    destruct (FindParameter s ctx Var); [apply keeps_ret | apply keeps_abort].
  - unfold InvocationCommand_Exec.
    apply keeps_bind; [apply He|]. intros [v|]; [|apply keeps_abort].
    destruct (asFunction _) as [fn|]; [|apply keeps_abort].
    destruct (asContextCommand _) as [[r x]|];
      [|apply Function_Exec_keeps].
    apply keeps_bind; [apply He|]. intros [rv|]; [|apply keeps_abort].
    destruct (_ !! _); [|apply keeps_abort].
    apply keeps_bind; [apply He|]. intros ?. apply Function_Exec_keeps.
  - apply keeps_ret.
  - unfold BinaryOperatorCommand_Exec.
    apply keeps_bind; [apply He|]. intros l.
    apply keeps_bind; [apply He|]. intros r.
    unfold apply_op. destruct l as [l|]; [|apply keeps_abort].
    destruct (asInt64 _); [|apply keeps_abort].
    destruct r as [r|]; [|apply keeps_abort].
    destruct (asInt64 _); [|apply keeps_abort].
    unfold arith. destruct op; try apply keeps_ret.
    destruct (Z.eqb _ _); [apply keeps_abort | apply keeps_ret].
  - apply execLines_keeps.
  - unfold ContextCommand_Exec.
    apply keeps_bind; [apply He|]. intros [rv|]; [|apply keeps_abort].
    destruct (_ !! _); [apply keeps_ret | apply keeps_abort].
  - unfold IfElseCommand_Exec.
    apply keeps_bind; [apply He|]. intros [cv|]; [|apply keeps_abort].
    destruct (asBool _) as [[|]|]; [apply He | | apply keeps_abort].
    destruct elseBranch; [apply He | apply keeps_ret].
Qed.

End Stable.

Lemma Exec_keeps n c ctx : keeps (Exec n c ctx).
Proof.
  revert c ctx. induction n as [|n IH]; intros c ctx.
  - intros s o H. discriminate H.
  - apply Command_Exec_keeps, IH.
Qed.

(** A variable that [FindVariable] returns sits in the cell the pointer
    names. *)
Lemma FindVariable_cell s ctx name ref variable :
  FindVariable s ctx name = Some (ref, variable) ->
  cells s !! ref = Some variable.
Proof.
  unfold FindVariable. generalize (length (contexts s)). intros steps.
  revert ctx. induction steps as [|k IH]; intros ctx; simpl; [discriminate|].
  destruct (contexts s !! ctx) as [fr|]; [|discriminate].
  destruct (variables fr !! name) as [r|] eqn:Hr; simpl.
  - destruct (cells s !! r) as [v|] eqn:Hv; simpl.
    + intros [= <- <-]. exact Hv.
    + destruct (parent fr); [apply IH | discriminate].
  - destruct (parent fr); [apply IH | discriminate].
Qed.

(** The pointer an assignment holds while its value is evaluated still
    names a variable afterwards, with the mutability and the declared type
    read before: reading [variable.Type] after the value has been evaluated
    gives the type the variable was found with. *)
Lemma assignment_target_stable s ctx name ref variable value o :
  FindVariable s ctx name = Some (ref, variable) ->
  Evaluates value ctx s o ->
  exists variable',
    cells (finalStore o) !! ref = Some variable'
    /\ varMutable variable' = varMutable variable
    /\ varType variable' = varType variable.
Proof.
  intros Hf [n Hn]. apply FindVariable_cell in Hf.
  destruct (Exec_keeps _ _ _ _ _ Hn ref variable Hf) as (x' & Hx & _ & Hm & Ht).
  exists x'. auto.
Qed.

(** ** The scanner reads on *)

(** Reading again after [consumeWhitespace], as scanner.go does, is what
    [Read] does by skipping the white space rune by rune. *)
Lemma Read_consumeWhitespace (input : string) :
  Read (consumeWhitespace input) = Read input.
Proof.
  unfold consumeWhitespace.
  induction input as [|ch rest IH]; simpl; [reflexivity|].
  destruct (isWhitespace ch) eqn:E.
  - destruct (readWhile isWhitespace rest) as [buf remaining]. exact IH.
  - simpl. rewrite E. reflexivity.
Qed.

Lemma readWhile_length class input :
  (String.length (readWhile class input).2 <= String.length input)%nat.
Proof.
  induction input as [|ch rest IH]; simpl; [lia|].
  destruct (class ch); simpl; [|lia].
  destruct (readWhile class rest) as [buf remaining]. simpl in *. lia.
Qed.

Lemma stringLoop_length input :
  (String.length (stringLoop input).2 <= String.length input)%nat.
Proof.
  induction input as [|ch rest IH]; simpl; [lia|].
  destruct (Ascii.eqb ch quote); simpl; [lia|].
  destruct (stringLoop rest) as [buf remaining]. simpl in *. lia.
Qed.

Lemma numberLoop_length input numType :
  (String.length (numberLoop input numType).2 <= String.length input)%nat.
Proof.
  revert numType. induction input as [|ch rest IH]; intros numType; simpl;
    [lia|].
  destruct (Ascii.eqb ch ".").
  - specialize (IH FLOAT). destruct (numberLoop rest FLOAT) as [[t buf] r].
    simpl in *. lia.
  - destruct (negb (isNumerical ch)); simpl; [lia|].
    specialize (IH numType). destruct (numberLoop rest numType) as [[t buf] r].
    simpl in *. lia.
Qed.

(** The token type of a number is the one the loop was entered with, or
    [FLOAT]. *)
Lemma numberLoop_type input numType :
  numType <> EOF -> (numberLoop input numType).1.1 <> EOF.
Proof.
  revert numType. induction input as [|ch rest IH]; intros numType Hne; simpl;
    [exact Hne|].
  destruct (Ascii.eqb ch ".").
  - specialize (IH FLOAT). destruct (numberLoop rest FLOAT) as [[t buf] r].
    simpl in *. apply IH. discriminate.
  - destruct (negb (isNumerical ch)); simpl; [exact Hne|].
    specialize (IH numType Hne). destruct (numberLoop rest numType) as [[t buf] r].
    exact IH.
Qed.

Ltac by_cases :=
  simpl;
  repeat match goal with
         | |- context [if ?b then _ else _] => destruct b
         end;
  simpl in *; (split; [lia | discriminate]).

(** A token takes at least the rune it starts with, and is never [EOF]. *)
Lemma readToken_length ch rest :
  (String.length (readToken ch rest).2 <= String.length rest)%nat
  /\ (readToken ch rest).1.1 <> EOF.
Proof.
  unfold readToken.
  destruct (isBracket ch); [unfold readBracket; simpl; by_cases|].
  destruct (isStartOfSymbol ch).
  { unfold readSymbol. simpl. destruct rest as [|peeked rest']; by_cases. }
  destruct (isOperatorSymbol ch).
  { unfold readOperator. simpl.
    pose proof (readWhile_length isOperatorSymbol rest) as H.
    destruct (readWhile isOperatorSymbol rest) as [buf remaining].
    by_cases. }
  destruct (isNumerical ch).
  { unfold readNumber. simpl.
    pose proof (numberLoop_length rest INT) as H.
    pose proof (numberLoop_type rest INT) as Hne.
    destruct (numberLoop rest INT) as [[t buf] r].
    simpl in *. split; [lia | apply Hne; discriminate]. }
  destruct (Ascii.eqb ch quote).
  { unfold readString. destruct rest as [|c rest']; simpl.
    - split; [lia | discriminate].
    - pose proof (stringLoop_length rest') as H.
      destruct (stringLoop rest') as [buf remaining]. simpl in *.
      split; [lia | discriminate]. }
  destruct (isValidIdentifier ch).
  { unfold readIdentifier. simpl.
    pose proof (readWhile_length isValidIdentifier rest) as H.
    destruct (readWhile isValidIdentifier rest) as [buf remaining].
    by_cases. }
  simpl. split; [lia | discriminate].
Qed.

Lemma Read_length input :
  (Read input).1.1 = EOF
  \/ (String.length (Read input).2 < String.length input)%nat.
Proof.
  induction input as [|ch rest IH]; simpl; [left; reflexivity|].
  destruct (isWhitespace ch).
  - destruct IH as [IH|IH]; [left; exact IH | right; lia].
  - right. pose proof (readToken_length ch rest) as [H _]. lia.
Qed.

(** The bound [lex] gives its loop is enough: a larger one yields the same
    tokens, so the token sequence is never cut short. *)
Lemma lexLoop_enough (fuel fuel' : nat) (input : string) :
  (String.length input < fuel)%nat -> (String.length input < fuel')%nat ->
  lexLoop fuel input = lexLoop fuel' input.
Proof.
  revert fuel' input. induction fuel as [|n IH]; intros fuel' input H H';
    [lia|].
  destruct fuel' as [|n']; [lia|]. simpl.
  pose proof (Read_length input) as HR.
  destruct (Read input) as [[tok str] rest]. simpl in HR.
  destruct HR as [-> | HR]; [reflexivity|].
  destruct tok; try reflexivity; f_equal; apply IH; lia.
Qed.

(** [into H Hc]: in the run [H] of a method body, the first sub-command is
    the one [Hc] gives the result of.  [along Hn]: the same, forwards. *)
Ltac into H Hc :=
  apply (bind_Evaluates _ _ _ _ _ _ _ _ Hc) in H; cbn beta iota in H.
Ltac along Hn :=
  rewrite (bind_Exec _ _ _ _ _ _ _ Hn); cbn beta iota.

(** ** IfElse *)

(** C7, as the code has it.  An [IfElseCommand] evaluates its condition
    first; a failure of the condition ends the command.  A condition that
    produces no value is dereferenced: the command stops with the host's nil
    dereference fault.  Once the condition has produced a value: if the
    payload of that value is not a boolean, the command fails with
    ConditionTypeError; if it is true, the command ends exactly as the
    if-branch does, whatever the else branch is; if it is false and there is
    an else branch, the command ends exactly as the else branch does; if it
    is false and there is no else branch, the command returns no value. *)
Theorem IfElseCommand_contract (condition ifBranch : Command)
    (elseBranch : option Command) (ctx : CtxRef) (s : Store) :
  let c := IfElseCommand condition ifBranch elseBranch in
  (forall e s1,
      Evaluates condition ctx s (Aborted e s1) ->
      Evaluates c ctx s (Aborted e s1))
  /\ (forall s1,
      Evaluates condition ctx s (Return None s1) ->
      Evaluates c ctx s (Aborted NilDereference s1))
  /\ (forall v s1,
      Evaluates condition ctx s (Return (Some v) s1) ->
      (asBool (valuePayload v) = None ->
         Evaluates c ctx s (Aborted (Panic ConditionTypeError) s1))
      /\ (asBool (valuePayload v) = Some true ->
          forall o, Evaluates c ctx s o <-> Evaluates ifBranch ctx s1 o)
      /\ (asBool (valuePayload v) = Some false ->
          forall e, elseBranch = Some e ->
          forall o, Evaluates c ctx s o <-> Evaluates e ctx s1 o)
      /\ (asBool (valuePayload v) = Some false -> elseBranch = None ->
          Evaluates c ctx s (Return None s1))).
Proof.
  intros c. split; [|split].
  { intros e s1 [n Hn]. exists (S n). simpl. unfold IfElseCommand_Exec.
    apply bind_Exec_aborted, Hn. }
  { intros s1 [n Hn]. exists (S n). simpl. unfold IfElseCommand_Exec.
    along Hn. reflexivity. }
  intros v s1 Hc. repeat split.
  - intros Hb. destruct Hc as [n Hn]. exists (S n). simpl.
    unfold IfElseCommand_Exec. along Hn. rewrite Hb.
    reflexivity.
  - intros Hi. apply Evaluates_inv in Hi as [n Hn]. simpl in Hn.
    unfold IfElseCommand_Exec in Hn.
    into Hn Hc. rewrite H in Hn.
    exists n. exact Hn.
  - intros Hi. destruct (Exec_common Hc Hi) as (n & Hn & Hn').
    exists (S n). simpl. unfold IfElseCommand_Exec.
    along Hn. rewrite H. exact Hn'.
  - intros Hi. subst elseBranch. apply Evaluates_inv in Hi as [n Hn].
    simpl in Hn. unfold IfElseCommand_Exec in Hn.
    into Hn Hc. rewrite H in Hn.
    exists n. exact Hn.
  - intros Hi. subst elseBranch. destruct (Exec_common Hc Hi) as (n & Hn & Hn').
    exists (S n). simpl. unfold IfElseCommand_Exec.
    along Hn. rewrite H. exact Hn'.
  - intros Hb ->. destruct Hc as [n Hn]. exists (S n). simpl.
    unfold IfElseCommand_Exec. along Hn. rewrite Hb.
    reflexivity.
Qed.

(** ** BinaryOp *)

(** An [int64] result that is in range is the exact result. *)
Lemma wrap64_exact (z : Z) :
  (- 2 ^ 63 <= z < 2 ^ 63)%Z -> wrap64 z = z.
Proof. intros H. unfold wrap64. rewrite Z.mod_small; lia. Qed.

Lemma IntResult_exact (z : Z) :
  (- 2 ^ 63 <= z < 2 ^ 63)%Z -> IntResult z = Some (IntValue z).
Proof. intros H. unfold IntResult, IntValue. rewrite wrap64_exact; trivial. Qed.

(** C6, as the code has it.  A [BinaryOperatorCommand] evaluates its left
    operand first and its right operand in the store the left one leaves; a
    failure of the left operand ends the command before the right operand
    is run, and a failure of the right operand ends it before any payload is
    inspected.  When both operands have produced values: if one of the
    payloads is not an integer the command fails with OperandTypeError; if
    both are integers the result is the Int value of the host's sum,
    difference or product, and for [/] with a divisor other than zero the
    quotient truncated toward zero; for [/] with divisor zero the command
    stops with the host's division fault.  An operand that has produced no
    value is dereferenced when its payload is read: the command stops with
    the host's nil dereference fault, unless the left operand is a value
    that is not an integer, which is reported first. *)
Theorem BinaryOperatorCommand_contract (lhs : Command) (op : BinaryRule)
    (rhs : Command) (ctx : CtxRef) (s : Store) :
  let c := BinaryOperatorCommand lhs op rhs in
  (forall e s1,
      Evaluates lhs ctx s (Aborted e s1) -> Evaluates c ctx s (Aborted e s1))
  /\ (forall l s1 e s2,
      Evaluates lhs ctx s (Return l s1) ->
      Evaluates rhs ctx s1 (Aborted e s2) ->
      Evaluates c ctx s (Aborted e s2))
  /\ (forall l s1 r s2,
      Evaluates lhs ctx s (Return (Some l) s1) ->
      Evaluates rhs ctx s1 (Return (Some r) s2) ->
      (asInt64 (valuePayload l) = None \/ asInt64 (valuePayload r) = None ->
         Evaluates c ctx s (Aborted (Panic OperandTypeError) s2))
      /\ (forall a b,
          asInt64 (valuePayload l) = Some a ->
          asInt64 (valuePayload r) = Some b ->
          (op = AddRule -> Evaluates c ctx s (Return (IntResult (a + b)) s2))
          /\ (op = SubtractRule ->
              Evaluates c ctx s (Return (IntResult (a - b)) s2))
          /\ (op = MultiplyRule ->
              Evaluates c ctx s (Return (IntResult (a * b)) s2))
          /\ (op = SlashRule -> b <> 0%Z ->
              Evaluates c ctx s (Return (IntResult (Z.quot a b)) s2))
          /\ (op = SlashRule -> b = 0%Z ->
              Evaluates c ctx s (Aborted DivideByZero s2))))
  /\ (forall l s1 r s2,
      Evaluates lhs ctx s (Return l s1) ->
      Evaluates rhs ctx s1 (Return r s2) ->
      (l = None -> Evaluates c ctx s (Aborted NilDereference s2))
      /\ (forall lv, l = Some lv -> r = None ->
          (asInt64 (valuePayload lv) = None ->
             Evaluates c ctx s (Aborted (Panic OperandTypeError) s2))
          /\ (forall a, asInt64 (valuePayload lv) = Some a ->
              Evaluates c ctx s (Aborted NilDereference s2)))).
Proof.
  intros c. split; [|split; [|split]]; cycle 3.
  { intros l s1 r s2 Hl Hr. destruct (Exec_common Hl Hr) as (n & Hn & Hn').
    assert (Hc : forall o, apply_op op l r s2 = Some o -> Evaluates c ctx s o).
    { intros o Ho. exists (S n). simpl. unfold BinaryOperatorCommand_Exec.
      along Hn. along Hn'. exact Ho. }
    split; [intros ->; apply Hc; reflexivity|].
    intros lv -> ->. split.
    - intros Ha. apply Hc. unfold apply_op. rewrite Ha. reflexivity.
    - intros a Ha. apply Hc. unfold apply_op. rewrite Ha. reflexivity. }
  - intros e s1 [n Hn]. exists (S n). simpl.
    unfold BinaryOperatorCommand_Exec. apply bind_Exec_aborted, Hn.
  - intros l s1 e s2 Hl Hr. destruct (Exec_common Hl Hr) as (n & Hn & Hn').
    exists (S n). simpl. unfold BinaryOperatorCommand_Exec.
    along Hn. apply bind_Exec_aborted, Hn'.
  - intros l s1 r s2 Hl Hr. destruct (Exec_common Hl Hr) as (n & Hn & Hn').
    assert (Hc : forall o, apply_op op (Some l) (Some r) s2 = Some o ->
                           Evaluates c ctx s o).
    { intros o Ho. exists (S n). simpl. unfold BinaryOperatorCommand_Exec.
      along Hn. along Hn'. exact Ho. }
    split.
    + intros Hbad. apply Hc. unfold apply_op.
      destruct (asInt64 (valuePayload l)); [|reflexivity].
      destruct Hbad as [Hbad|Hbad]; [discriminate Hbad|].
      rewrite Hbad. reflexivity.
    + intros a b Ha Hb.
      assert (Hop : apply_op op (Some l) (Some r) s2 = arith op a b s2)
        by (unfold apply_op; rewrite Ha, Hb; reflexivity).
      repeat split; intros ->; intros; apply Hc; rewrite Hop; simpl;
        try reflexivity.
      * destruct (Z.eqb_spec b 0); [contradiction | reflexivity].
      * subst b. reflexivity.
Qed.

(** ** VariableRef *)

(** C8.  A [VariableCommand] resolves its name against the variables first:
    a variable found by the upward walk gives the result, whether or not a
    parameter of that name is bound; a parameter is looked up only when no
    variable is found; when neither is found the command fails with
    UndefinedVariable.  The store is left as it is. *)
Theorem VariableCommand_contract (name : string) (ctx : CtxRef) (s : Store) :
  let c := VariableCommand name in
  (forall ref variable,
      FindVariable s ctx name = Some (ref, variable) ->
      Evaluates c ctx s (Return (varValue variable) s))
  /\ (forall param,
      FindVariable s ctx name = None ->
      FindParameter s ctx name = Some param ->
      Evaluates c ctx s (Return (Some param) s))
  /\ (FindVariable s ctx name = None ->
      FindParameter s ctx name = None ->
      Evaluates c ctx s (Aborted (Panic UndefinedVariable) s)).
Proof.
  intros c. repeat split.
  - intros ref variable Hv. exists 1%nat. simpl.
    unfold VariableCommand_Exec, bind, get. rewrite Hv. reflexivity.
  - intros param Hv Hp. exists 1%nat. simpl.
    unfold VariableCommand_Exec, bind, get. rewrite Hv, Hp. reflexivity.
  - intros Hv Hp. exists 1%nat. simpl.
    unfold VariableCommand_Exec, bind, get. rewrite Hv, Hp. reflexivity.
Qed.

(** ** Assign *)

(** C4.  An [AssignmentCommand] first resolves its target: when no variable
    is found it fails with UndefinedVariable, and when the variable found is
    immutable it fails with ImmutableAssignment; in both cases the store is
    the one the command started in, whatever the value command is, so the
    value command has not been run.  Only for a mutable target is the value
    evaluated: a failure of the value ends the command; a value whose type
    the declared type of the variable does not accept fails with
    TypeMismatch; an accepted value replaces the value held in the cell of
    the variable, and the command returns no value. *)
Theorem AssignmentCommand_contract (name : string) (value : Command)
    (ctx : CtxRef) (s : Store) :
  let c := AssignmentCommand name value in
  (FindVariable s ctx name = None ->
     Evaluates c ctx s (Aborted (Panic UndefinedVariable) s))
  /\ (forall ref variable,
      FindVariable s ctx name = Some (ref, variable) ->
      varMutable variable = false ->
      Evaluates c ctx s (Aborted (Panic ImmutableAssignment) s))
  /\ (forall ref variable,
      FindVariable s ctx name = Some (ref, variable) ->
      varMutable variable = true ->
      (forall e s1,
          Evaluates value ctx s (Aborted e s1) ->
          Evaluates c ctx s (Aborted e s1))
      /\ (forall v s1,
          Evaluates value ctx s (Return (Some v) s1) ->
          (Accepts (varType variable) (valueType v) = false ->
             Evaluates c ctx s (Aborted (Panic TypeMismatch) s1))
          /\ (Accepts (varType variable) (valueType v) = true ->
              Evaluates c ctx s (Return None (assignCell ref (Some v) s1))))).
Proof.
  intros c. split; [|split].
  - intros Hv. exists 1%nat. simpl.
    unfold AssignmentCommand_Exec, bind, get. rewrite Hv. reflexivity.
  - intros ref variable Hv Hm. exists 1%nat. simpl.
    unfold AssignmentCommand_Exec, bind, get. rewrite Hv, Hm. reflexivity.
  - intros ref variable Hv Hm.
    assert (Hc : forall n o,
      bind (Exec n value ctx) (fun value =>
        match value with
        | None => abort NilDereference
        | Some v =>
            if negb (Accepts (varType variable) (valueType v))
            then panic TypeMismatch
            else bind (modify (assignCell ref (Some v))) (fun _ => ret None)
        end) s = Some o -> Evaluates c ctx s o).
    { intros n o Ho. exists (S n). simpl.
      unfold AssignmentCommand_Exec. unfold bind at 1, get. rewrite Hv, Hm.
      exact Ho. }
    split.
    + intros e s1 [n Hn]. apply (Hc n). apply bind_Exec_aborted, Hn.
    + intros v s1 [n Hn]. split; intros Ha; apply (Hc n); along Hn;
        rewrite Ha; reflexivity.
Qed.

(** ** DefineVar *)

(** A variable defined in a frame of the store is found there, in its fresh
    cell. *)
Lemma FindVariable_DefineVariable (s : Store) (ctx : CtxRef) (name : string)
    (v : Variable_) :
  (ctx < length (contexts s))%nat ->
  FindVariable (DefineVariable ctx name v s) ctx name
  = Some (length (cells s), v).
Proof.
  intros Hctx. unfold FindVariable, DefineVariable. simpl.
  rewrite length_alter.
  destruct (length (contexts s)) as [|k] eqn:Hk; [lia|]. simpl.
  rewrite list_lookup_alter.
  case_decide; [|congruence].
  destruct (lookup_lt_is_Some_2 (contexts s) ctx) as [fr Hfr]; [lia|].
  rewrite Hfr. simpl. rewrite lookup_insert_eq. simpl.
  rewrite lookup_app_r by lia. rewrite Nat.sub_diag. reflexivity.
Qed.

(** C5.  Once the value command of a [DefineVarCommand] has produced a
    value: if the declared type does not accept the type of the value, the
    command fails with TypeMismatch and the store at the failure is the one
    the value command left, so the definition has created no variable in any
    frame and every frame resolves the name as before; if the declared type
    accepts it, a new variable is created in the current frame, where the
    name then resolves to it, and the command returns no value. *)
Theorem DefineVarCommand_contract (name : string) (mutable : bool)
    (ty : Type_) (value : Command) (ctx : CtxRef) (s s1 : Store) (v : Value) :
  Evaluates value ctx s (Return (Some v) s1) ->
  let c := DefineVarCommand name mutable ty value in
  let variable := {| varName := name; varMutable := mutable;
                     varType := ty; varValue := Some v |} in
  (Accepts ty (valueType v) = false ->
     exists s', Evaluates c ctx s (Aborted (Panic TypeMismatch) s')
       /\ contexts s' = contexts s1 /\ cells s' = cells s1
       /\ forall frame, FindVariable s' frame name = FindVariable s1 frame name)
  /\ (Accepts ty (valueType v) = true ->
      Evaluates c ctx s (Return None (DefineVariable ctx name variable s1))
      /\ ((ctx < length (contexts s1))%nat ->
          FindVariable (DefineVariable ctx name variable s1) ctx name
          = Some (length (cells s1), variable))).
Proof.
  intros [n Hn] c variable. split; intros Ha.
  - exists s1. repeat split. exists (S n). simpl.
    unfold DefineVarCommand_Exec. along Hn. rewrite Ha. reflexivity.
  - split; [|apply FindVariable_DefineVariable].
    exists (S n). simpl.
    unfold DefineVarCommand_Exec. along Hn. rewrite Ha. reflexivity.
Qed.

(** ** Value commands that produce no value *)

(** C9.  When the value command of a [DefineVarCommand] produces no value,
    the only outcome of the definition is the host's nil dereference fault,
    raised in the store the value command left.  The same holds for an
    [AssignmentCommand] whose target is found and mutable, the case in which
    the value command is run.  The fault is none of the error kinds. *)
Theorem absent_value_is_dereferenced (name : string) (value : Command)
    (ctx : CtxRef) (s s1 : Store) :
  Evaluates value ctx s (Return None s1) ->
  (forall mutable ty o,
      Evaluates (DefineVarCommand name mutable ty value) ctx s o
      <-> o = Aborted NilDereference s1)
  /\ (forall ref variable,
      FindVariable s ctx name = Some (ref, variable) ->
      varMutable variable = true ->
      forall o,
        Evaluates (AssignmentCommand name value) ctx s o
        <-> o = Aborted NilDereference s1)
  /\ (forall k, Aborted (A := option Value) NilDereference s1
               <> Aborted (Panic k) s1).
Proof.
  intros Hv. split; [|split].
  - intros mutable ty o. split.
    + intros Hc. apply Evaluates_inv in Hc as [n Hn]. simpl in Hn.
      unfold DefineVarCommand_Exec in Hn. into Hn Hv.
      injection Hn as <-. reflexivity.
    + intros ->. destruct Hv as [n Hn]. exists (S n). simpl.
      unfold DefineVarCommand_Exec. along Hn. reflexivity.
  - intros ref variable Hf Hm o. split.
    + intros Hc. apply Evaluates_inv in Hc as [n Hn]. simpl in Hn.
      unfold AssignmentCommand_Exec in Hn. unfold bind at 1, get in Hn.
      rewrite Hf, Hm in Hn. simpl in Hn. into Hn Hv.
      injection Hn as <-. reflexivity.
    + intros ->. destruct Hv as [n Hn]. exists (S n). simpl.
      unfold AssignmentCommand_Exec. unfold bind at 1, get.
      rewrite Hf, Hm. simpl. along Hn. reflexivity.
  - intros k H. discriminate H.
Qed.

(** ** Member access and invocation *)

(** The frame a function body runs in: allocated after the arguments have
    been evaluated, holding the receiver the invocation was given. *)
Lemma Function_Exec_frame (e : Command -> CtxRef -> Eval (option Value))
    (f : Function) (ctx : CtxRef) (receiver : option Value)
    (args : list Command) (s s1 : Store) (vs : list (option Value)) :
  length args = length (sigParameters (funcSignature f)) ->
  execArgs e args ctx s = Some (Return vs s1) ->
  let frame := {| variables := ∅;
                  parameters := bindParameters (sigParameters (funcSignature f)) vs;
                  ctxReceiver := receiver;
                  parent := funcDefining f |} in
  Function_Exec e f ctx receiver args s
  = e (funcBody f) (length (contexts s1))
      {| contexts := contexts s1 ++ [frame]; cells := cells s1 |}.
Proof.
  intros Hlen Hargs frame. unfold Function_Exec.
  rewrite Hlen, Nat.eqb_refl. simpl.
  unfold bind at 1. rewrite Hargs. reflexivity.
Qed.

(** What [InvocationCommand.Exec] does when the invoked command is a
    [ContextCommand]: the receiver command is run three times in a row.  The
    first run feeds the member access, whose value is only tested for being a
    function; the member function is looked up on the value of the second
    run; the value of the third run is the receiver the function is invoked
    with. *)
Lemma InvocationCommand_member (receiver : Command) (name : string)
    (args : list Command) (ctx : CtxRef) (s s1 s2 s3 : Store)
    (r1 r2 : Value) (r3 : option Value) (f1 f2 : Function) :
  Evaluates receiver ctx s (Return (Some r1) s1) ->
  typeFunctions (valueType r1) !! name = Some f1 ->
  Evaluates receiver ctx s1 (Return (Some r2) s2) ->
  typeFunctions (valueType r2) !! name = Some f2 ->
  Evaluates receiver ctx s2 (Return r3 s3) ->
  forall o,
    Evaluates (InvocationCommand (ContextCommand receiver name) args) ctx s o
    <-> Invokes f2 ctx r3 args s3 o.
Proof.
  intros H1 Hf1 H2 Hf2 H3 o.
  assert (Hm : Evaluates (ContextCommand receiver name) ctx s
                 (Return (Some (MkValue (FunctionType (Some name) f1)
                                        (PFunction f1))) s1)).
  { destruct H1 as [n Hn]. exists (S n). simpl. unfold ContextCommand_Exec.
    along Hn. rewrite Hf1. reflexivity. }
  split.
  - intros Hc. apply Evaluates_inv in Hc as [n Hn]. simpl in Hn.
    unfold InvocationCommand_Exec in Hn. into Hn Hm. simpl in Hn.
    into Hn H2. rewrite Hf2 in Hn. into Hn H3.
    exists n. exact Hn.
  - intros [m Hi].
    destruct Hm as [n0 Hm], H2 as [n2 H2], H3 as [n3 H3].
    set (N := (m + n0 + n2 + n3)%nat).
    apply (Exec_le _ N) in Hm, H2, H3; try (unfold N; lia).
    apply (Invokes_le _ _ _ _ _ _ _ N) in Hi; [|unfold N; lia].
    exists (S N). simpl. unfold InvocationCommand_Exec.
    along Hm. simpl. along H2. rewrite Hf2. along H3. exact Hi.
Qed.

(** For a receiver command without effect (it returns the same value and
    leaves the store as it is), the three runs are indistinguishable from
    one: the member function is invoked with the receiver bound. *)
Corollary InvocationCommand_member_pure (receiver : Command) (name : string)
    (args : list Command) (ctx : CtxRef) (s : Store) (r : Value)
    (f : Function) :
  Evaluates receiver ctx s (Return (Some r) s) ->
  typeFunctions (valueType r) !! name = Some f ->
  forall o,
    Evaluates (InvocationCommand (ContextCommand receiver name) args) ctx s o
    <-> Invokes f ctx (Some r) args s o.
Proof.
  intros Hr Hf. apply (InvocationCommand_member _ _ _ _ s s s s r r _ f f);
    assumption.
Qed.

(** C10.  The value of a member access is built from the member name and
    the member function alone; the receiver is not part of it.  Wherever
    that value comes out of an invoked command that is not itself a
    [ContextCommand], the invocation ends exactly as the invocation of the
    function with no receiver does. *)
Theorem member_value_drops_receiver (receiver : Command) (name : string)
    (ctx : CtxRef) (s s1 : Store) (r : Value) (f : Function) :
  Evaluates receiver ctx s (Return (Some r) s1) ->
  typeFunctions (valueType r) !! name = Some f ->
  let member := MkValue (FunctionType (Some name) f) (PFunction f) in
  Evaluates (ContextCommand receiver name) ctx s (Return (Some member) s1)
  /\ forall invoking args ctx' s2 s3 o,
      asContextCommand invoking = None ->
      Evaluates invoking ctx' s2 (Return (Some member) s3) ->
      (Evaluates (InvocationCommand invoking args) ctx' s2 o
       <-> Invokes f ctx' None args s3 o).
Proof.
  intros Hr Hf member. split.
  - destruct Hr as [n Hn]. exists (S n). simpl. unfold ContextCommand_Exec.
    along Hn. rewrite Hf. reflexivity.
  - intros invoking args ctx' s2 s3 o Hnc Hi. split.
    + intros Hc. apply Evaluates_inv in Hc as [n Hn]. simpl in Hn.
      unfold InvocationCommand_Exec in Hn. into Hn Hi. simpl in Hn.
      rewrite Hnc in Hn. exists n. exact Hn.
    + intros [m Hm]. destruct Hi as [n Hn].
      apply (Exec_le _ (n + m)) in Hn; [|lia].
      apply (Invokes_le _ _ _ _ _ _ _ (n + m)) in Hm; [|lia].
      exists (S (n + m)). simpl. unfold InvocationCommand_Exec.
      along Hn. simpl. rewrite Hnc. exact Hm.
Qed.

(** ** Lowering of type annotations *)

(** A definition without annotation is lowered to a definition of type
    [Any]; the lowering succeeds whenever the lowering of its value does. *)
Lemma ToCommand_VarDef_unannotated (identifier : string) (mutable : bool)
    (value : Expr) :
  ToCommand (VarDefStmt identifier mutable None value)
  = andThen (ExpressionToCommand value)
      (fun valueExpr =>
         Built (DefineVarCommand identifier mutable AnyType valueExpr)).
Proof. reflexivity. Qed.

Lemma lowerParameters_unannotated (arguments : list FunctionArgument) :
  Exists (fun parameter => argType parameter = None) arguments ->
  lowerParameters arguments = Failed NilDereference.
Proof.
  induction arguments as [|p rest IH]; intros H.
  - inversion H.
  - simpl. destruct (FromASTType (argType p)) eqn:E; [|reflexivity].
    inversion H as [? ? Hp | ? ? Hrest]; subst.
    + rewrite Hp in E. discriminate E.
    + rewrite (IH Hrest). reflexivity.
Qed.

(** C3, the parameter half, as the code has it.  The lowering of a function
    literal with a parameter that carries no type annotation does not
    resolve the parameter to [Any]: it stops with the host's nil dereference
    fault, whatever the rest of the literal is. *)
Theorem FuncDefExpr_unannotated_parameter
    (arguments : list FunctionArgument) (returnType : option ASTType)
    (statement : Stmt) :
  Exists (fun parameter => argType parameter = None) arguments ->
  ExpressionToCommand (FuncDefExpr arguments returnType statement)
  = Failed NilDereference.
Proof.
  intros H. simpl. rewrite (lowerParameters_unannotated _ H). reflexivity.
Qed.

(** * The contracts at work *)

(** ** Batch execution *)

(** The scanner reads the source of the test as five tokens, and the parser
    reads these as a definition followed by an expression statement. *)
Example lex_simpleVariableDeclaration :
  lex None simpleVariableDeclaration
  = [ mkToken LET "let"; mkToken IDENTIFIER "a"; mkToken EQUAL "=";
      mkToken INT "3"; mkToken IDENTIFIER "a" ].
Proof. reflexivity. Qed.

Example parse_simpleVariableDeclaration :
  parse (lex None simpleVariableDeclaration)
  = Parse [ VarDefStmt "a" false None (IntegerLiteralExpr 3);
            ExpressionStmt (VariableExpr "a") ] [].
Proof. reflexivity. Qed.

(** For every integer [n], the statements of [let a = n] followed by [a]
    yield no value and then [Int(n)]. *)
Lemma executeStatements_define_then_read (n : Z) :
  exists s,
    executeStatements 2
      [ VarDefStmt "a" false None (IntegerLiteralExpr n);
        ExpressionStmt (VariableExpr "a") ] rootContext rootStore
    = Some (Return [None; Some (IntValue n)] s).
Proof. eexists. vm_compute. reflexivity. Qed.

(** C1.  Batch execution of the source [let a = 3], line feed, [a] returns
    the two results [none] and [Int(3)], in this order. *)
Theorem Execute_simpleVariableDeclaration :
  exists s,
    Execute 2 None simpleVariableDeclaration false
    = Some (Return [None; Some (IntValue 3)] s).
Proof. eexists. vm_compute. reflexivity. Qed.

Example Execute_simpleVariableDeclarationIndented :
  exists s,
    Execute 2 None simpleVariableDeclarationIndented false
    = Some (Return [None; Some (IntValue 3)] s).
Proof. eexists. vm_compute. reflexivity. Qed.

(** ** Member invocation *)

(** Run on its own, the receiver with an effect adds one to [n]. *)
Example countingReceiver_once :
  exists s,
    Evaluates countingReceiver rootContext counterStore
      (Return (Some receiverValue) s)
    /\ FindVariable s rootContext "n" = Some (0%nat, counter 1).
Proof. eexists. split; [exists 4%nat|]; vm_compute; reflexivity. Qed.

(** C2, on a receiver with an effect.  The member call
    [countingReceiver.f()], run in the store in which [n] is [0], returns the
    result of [f] with the receiver bound in the frame of the call; but [n]
    is [3] afterwards: the receiver command has been run three times, not
    once. *)
Theorem member_call_runs_receiver_three_times :
  exists s,
    Evaluates countingMemberCall rootContext counterStore
      (Return (Some (IntValue 1)) s)
    /\ FindVariable s rootContext "n" = Some (0%nat, counter 3)
    /\ contexts s !! 1%nat = Some (memberFrame (Some receiverValue)).
Proof.
  eexists. split; [exists 6%nat|split]; vm_compute; reflexivity.
Qed.

(** A receiver without effect: the member call is the invocation of the
    member function with the receiver bound. *)
Example member_call_pure_receiver :
  Evaluates (InvocationCommand (ContextCommand (LiteralCommand receiverValue) "f") [])
    rootContext rootStore
    (Return (Some (IntValue 1))
       {| contexts := contexts rootStore ++ [memberFrame (Some receiverValue)];
          cells := [] |}).
Proof.
  apply (InvocationCommand_member_pure _ "f" [] _ _ receiverValue memberOne).
  - exists 1%nat. reflexivity.
  - vm_compute. reflexivity.
  - exists 1%nat. vm_compute. reflexivity.
Qed.

(** The member value stored in a variable and then called: the frame of the
    call holds no receiver. *)
Lemma member_value_drops_receiver_witness :
  Evaluates (ContextCommand (LiteralCommand receiverValue) "f")
    rootContext rootStore (Return (Some memberValue) rootStore)
  /\ Evaluates (InvocationCommand (VariableCommand "m") [])
       rootContext storeWithMember
       (Return (Some (IntValue 1))
          {| contexts := contexts storeWithMember ++ [memberFrame None];
             cells := cells storeWithMember |}).
Proof.
  assert (Hr : Evaluates (LiteralCommand receiverValue) rootContext rootStore
                 (Return (Some receiverValue) rootStore))
    by (exists 1%nat; reflexivity).
  assert (Hf : typeFunctions (valueType receiverValue) !! "f" = Some memberOne)
    by (vm_compute; reflexivity).
  destruct (member_value_drops_receiver _ _ _ _ _ _ _ Hr Hf) as [Hm Hcall].
  split; [exact Hm|].
  apply (Hcall (VariableCommand "m") [] rootContext storeWithMember
           storeWithMember).
  - reflexivity.
  - exists 1%nat. vm_compute. reflexivity.
  - exists 1%nat. vm_compute. reflexivity.
Defined.

(** ** Lowering *)

(** The function literal [(x) => x] with an annotated return type is not
    lowered; the definition [let a = 3] is lowered with type [Any]. *)
Lemma FuncDefExpr_unannotated_parameter_witness :
  ExpressionToCommand
    (FuncDefExpr [mkArgument None "x"] (Some (ElementaryType "Int"))
       (ExpressionStmt (VariableExpr "x")))
  = Failed NilDereference.
Proof.
  apply FuncDefExpr_unannotated_parameter.
  apply Exists_cons_hd. reflexivity.
Defined.

Example ToCommand_unannotated_definition :
  ToCommand (VarDefStmt "a" false None (IntegerLiteralExpr 3))
  = Built (DefineVarCommand "a" false AnyType (intLiteral 3)).
Proof. reflexivity. Qed.

(** With every parameter annotated the literal is lowered. *)
Example ExpressionToCommand_annotated_parameter :
  ExpressionToCommand
    (FuncDefExpr [mkArgument (Some (ElementaryType "Int")) "x"]
       (Some (ElementaryType "Int")) (ExpressionStmt (VariableExpr "x")))
  = let fn := MkFunction (MkSignature [MkParameter IntType "x"] IntType)
                (VariableCommand "x") None in
    Built (LiteralCommand (MkValue (FunctionType None fn) (PFunction fn))).
Proof. vm_compute. reflexivity. Qed.

(** ** Conditionals *)

Ltac literally := exists 1%nat; reflexivity.

(** [if true => 1 else => 2] is [Int(1)]; [if false => 1 else => 2] is
    [Int(2)]; [if false => 1] is no value; [if 1 => 1] fails. *)
Lemma IfElseCommand_contract_witness :
  Evaluates (IfElseCommand (boolLiteral true) (intLiteral 1) (Some (intLiteral 2)))
    rootContext rootStore (Return (Some (IntValue 1)) rootStore)
  /\ Evaluates (IfElseCommand (boolLiteral false) (intLiteral 1) (Some (intLiteral 2)))
       rootContext rootStore (Return (Some (IntValue 2)) rootStore)
  /\ Evaluates ifWithoutElse rootContext rootStore (Return None rootStore)
  /\ Evaluates (IfElseCommand (intLiteral 1) (intLiteral 1) None)
       rootContext rootStore (Aborted (Panic ConditionTypeError) rootStore).
Proof.
  repeat split.
  - destruct (IfElseCommand_contract (boolLiteral true) (intLiteral 1)
                (Some (intLiteral 2)) rootContext rootStore)
      as (_ & _ & Hvalue).
    destruct (Hvalue (MkValue BooleanType (PBool true)) rootStore)
      as (_ & Htrue & _); [literally|].
    apply Htrue; [reflexivity | literally].
  - destruct (IfElseCommand_contract (boolLiteral false) (intLiteral 1)
                (Some (intLiteral 2)) rootContext rootStore)
      as (_ & _ & Hvalue).
    destruct (Hvalue (MkValue BooleanType (PBool false)) rootStore)
      as (_ & _ & Hfalse & _); [literally|].
    apply (Hfalse eq_refl (intLiteral 2) eq_refl). literally.
  - destruct (IfElseCommand_contract (boolLiteral false) (intLiteral 1) None
                rootContext rootStore) as (_ & _ & Hvalue).
    destruct (Hvalue (MkValue BooleanType (PBool false)) rootStore)
      as (_ & _ & _ & Hnone); [literally|].
    apply Hnone; reflexivity.
  - destruct (IfElseCommand_contract (intLiteral 1) (intLiteral 1) None
                rootContext rootStore) as (_ & _ & Hvalue).
    destruct (Hvalue (IntValue 1) rootStore) as (Hbad & _); [literally|].
    apply Hbad. reflexivity.
Defined.

(** C7 as stated fails on a condition that produces no value: after
    [let mut n = 0], the condition of [if (n = 1) => 1] is an assignment; it
    is run, it produces no value, and the command ends in the host's nil
    dereference fault, not in ConditionTypeError; it has no other outcome. *)
Lemma absent_condition_faults :
  let c := IfElseCommand (AssignmentCommand "n" (intLiteral 1))
             (intLiteral 1) None in
  let s1 := assignCell 0 (Some (IntValue 1)) counterStore in
  Evaluates (AssignmentCommand "n" (intLiteral 1)) rootContext counterStore
    (Return None s1)
  /\ Evaluates c rootContext counterStore (Aborted NilDereference s1)
  /\ forall s, ~ Evaluates c rootContext counterStore
                   (Aborted (Panic ConditionTypeError) s).
Proof.
  assert (H : Evaluates
                (IfElseCommand (AssignmentCommand "n" (intLiteral 1))
                   (intLiteral 1) None) rootContext counterStore
                (Aborted NilDereference
                   (assignCell 0 (Some (IntValue 1)) counterStore)))
    by (exists 3%nat; vm_compute; reflexivity).
  repeat split; try exact H.
  - exists 2%nat. vm_compute. reflexivity.
  - intros s Hs. discriminate (Evaluates_deterministic _ _ _ _ _ H Hs).
Qed.

(** ** Arithmetic *)

(** [2 + 3] is [Int(5)], [2 - 3] is [Int(-1)], [2 * 3] is [Int(6)],
    [7 / 2] is [Int(3)], [-7 / 2] is [Int(-3)], and [2 + true] fails. *)
Lemma BinaryOperatorCommand_contract_witness :
  Evaluates (BinaryOperatorCommand (intLiteral 2) AddRule (intLiteral 3))
    rootContext rootStore (Return (Some (IntValue 5)) rootStore)
  /\ Evaluates (BinaryOperatorCommand (intLiteral 2) SubtractRule (intLiteral 3))
       rootContext rootStore (Return (Some (IntValue (-1))) rootStore)
  /\ Evaluates (BinaryOperatorCommand (intLiteral 2) MultiplyRule (intLiteral 3))
       rootContext rootStore (Return (Some (IntValue 6)) rootStore)
  /\ Evaluates (BinaryOperatorCommand (intLiteral 7) SlashRule (intLiteral 2))
       rootContext rootStore (Return (Some (IntValue 3)) rootStore)
  /\ Evaluates (BinaryOperatorCommand (intLiteral (-7)) SlashRule (intLiteral 2))
       rootContext rootStore (Return (Some (IntValue (-3))) rootStore)
  /\ Evaluates (BinaryOperatorCommand (intLiteral 2) AddRule (boolLiteral true))
       rootContext rootStore (Aborted (Panic OperandTypeError) rootStore).
Proof.
  assert (H : forall a op b,
    let c := BinaryOperatorCommand (intLiteral a) op (intLiteral b) in
    (op = AddRule -> Evaluates c rootContext rootStore
                       (Return (IntResult (a + b)) rootStore))
    /\ (op = SubtractRule -> Evaluates c rootContext rootStore
                       (Return (IntResult (a - b)) rootStore))
    /\ (op = MultiplyRule -> Evaluates c rootContext rootStore
                       (Return (IntResult (a * b)) rootStore))
    /\ (op = SlashRule -> b <> 0%Z -> Evaluates c rootContext rootStore
                       (Return (IntResult (Z.quot a b)) rootStore))
    /\ (op = SlashRule -> b = 0%Z -> Evaluates c rootContext rootStore
                       (Aborted DivideByZero rootStore))).
  { intros a op b c.
    destruct (BinaryOperatorCommand_contract (intLiteral a) op (intLiteral b)
                rootContext rootStore) as (_ & _ & Hboth & _).
    destruct (Hboth (IntValue a) rootStore (IntValue b) rootStore)
      as (_ & Hint); [literally | literally |].
    exact (Hint a b eq_refl eq_refl). }
  repeat split.
  - apply (H 2%Z AddRule 3%Z). reflexivity.
  - apply (H 2%Z SubtractRule 3%Z). reflexivity.
  - apply (H 2%Z MultiplyRule 3%Z). reflexivity.
  - apply (H 7%Z SlashRule 2%Z); [reflexivity | discriminate].
  - apply (H (-7)%Z SlashRule 2%Z); [reflexivity | discriminate].
  - destruct (BinaryOperatorCommand_contract (intLiteral 2) AddRule
                (boolLiteral true) rootContext rootStore) as (_ & _ & Hboth & _).
    destruct (Hboth (IntValue 2) rootStore (MkValue BooleanType (PBool true))
                rootStore) as (Hbad & _); [literally | literally |].
    apply Hbad. right. reflexivity.
Defined.

(** C6 as stated fails on a zero divisor: both operands of [7 / 0] are
    integers, and the command ends in the host's division fault; it has no
    result.  It also fails on [(if false => 1) + true]: the payload of the
    right operand is not an integer, and the command ends in the host's nil
    dereference fault on the left operand, not in OperandTypeError. *)
Lemma BinaryOperatorCommand_faults :
  let c := BinaryOperatorCommand (intLiteral 7) SlashRule (intLiteral 0) in
  let c' := BinaryOperatorCommand ifWithoutElse AddRule (boolLiteral true) in
  asInt64 (valuePayload (IntValue 7)) = Some 7%Z
  /\ asInt64 (valuePayload (IntValue 0)) = Some 0%Z
  /\ Evaluates c rootContext rootStore (Aborted DivideByZero rootStore)
  /\ (forall result s, ~ Evaluates c rootContext rootStore (Return result s))
  /\ asInt64 (PBool true) = None
  /\ Evaluates c' rootContext rootStore (Aborted NilDereference rootStore)
  /\ (forall s, ~ Evaluates c' rootContext rootStore
                    (Aborted (Panic OperandTypeError) s)).
Proof.
  assert (H : Evaluates
                (BinaryOperatorCommand (intLiteral 7) SlashRule (intLiteral 0))
                rootContext rootStore (Aborted DivideByZero rootStore))
    by (exists 2%nat; reflexivity).
  assert (H' : Evaluates
                 (BinaryOperatorCommand ifWithoutElse AddRule (boolLiteral true))
                 rootContext rootStore (Aborted NilDereference rootStore))
    by (exists 3%nat; reflexivity).
  repeat split; try exact H; try exact H'.
  - intros result s Hr.
    discriminate (Evaluates_deterministic _ _ _ _ _ H Hr).
  - intros s Hs.
    discriminate (Evaluates_deterministic _ _ _ _ _ H' Hs).
Qed.

(** ** Variables *)

(** In a call frame below the root, where the root defines the variable [a]
    and the call binds the parameters [a] and [p]: [a] is the variable of
    the root, [p] is the parameter, and [q] is undefined. *)
Lemma VariableCommand_contract_witness :
  FindParameter storeInCall callContext "a" = Some (IntValue 2)
  /\ Evaluates (VariableCommand "a") callContext storeInCall
       (Return (Some (IntValue 1)) storeInCall)
  /\ Evaluates (VariableCommand "p") callContext storeInCall
       (Return (Some (IntValue 7)) storeInCall)
  /\ Evaluates (VariableCommand "q") callContext storeInCall
       (Aborted (Panic UndefinedVariable) storeInCall).
Proof.
  split; [vm_compute; reflexivity|]. repeat split.
  - destruct (VariableCommand_contract "a" callContext storeInCall)
      as (Hvar & _).
    apply (Hvar 0%nat immutableA). vm_compute. reflexivity.
  - destruct (VariableCommand_contract "p" callContext storeInCall)
      as (_ & Hparam & _).
    apply Hparam; vm_compute; reflexivity.
  - destruct (VariableCommand_contract "q" callContext storeInCall)
      as (_ & _ & Hnone).
    apply Hnone; vm_compute; reflexivity.
Defined.

(** [b = 2] where no [b] is defined; [a = 2] and [a = b] after [let a = 1];
    [i = 3.5] after [let mut i: Int = 0]; [n = 5] after [let mut n = 0]. *)
Lemma AssignmentCommand_contract_witness :
  Evaluates (AssignmentCommand "b" (intLiteral 2)) rootContext rootStore
    (Aborted (Panic UndefinedVariable) rootStore)
  /\ Evaluates (AssignmentCommand "a" (intLiteral 2)) rootContext storeWithA
       (Aborted (Panic ImmutableAssignment) storeWithA)
  /\ Evaluates (AssignmentCommand "a" (VariableCommand "b")) rootContext storeWithA
       (Aborted (Panic ImmutableAssignment) storeWithA)
  /\ Evaluates (AssignmentCommand "i" (floatLiteral 3.5)) rootContext storeWithI
       (Aborted (Panic TypeMismatch) storeWithI)
  /\ Evaluates (AssignmentCommand "n" (intLiteral 5)) rootContext counterStore
       (Return None (assignCell 0 (Some (IntValue 5)) counterStore))
  /\ FindVariable (assignCell 0 (Some (IntValue 5)) counterStore) rootContext "n"
     = Some (0%nat, counter 5).
Proof.
  repeat split.
  - destruct (AssignmentCommand_contract "b" (intLiteral 2) rootContext
                rootStore) as (Hundefined & _).
    apply Hundefined. vm_compute. reflexivity.
  - destruct (AssignmentCommand_contract "a" (intLiteral 2) rootContext
                storeWithA) as (_ & Himmutable & _).
    apply (Himmutable 0%nat immutableA); vm_compute; reflexivity.
  - destruct (AssignmentCommand_contract "a" (VariableCommand "b") rootContext
                storeWithA) as (_ & Himmutable & _).
    apply (Himmutable 0%nat immutableA); vm_compute; reflexivity.
  - destruct (AssignmentCommand_contract "i" (floatLiteral 3.5) rootContext
                storeWithI) as (_ & _ & Hmutable).
    destruct (Hmutable 0%nat intCell) as (_ & Hvalue);
      [vm_compute; reflexivity | reflexivity |].
    destruct (Hvalue (FloatValue 3.5) storeWithI) as (Hmismatch & _);
      [literally|].
    apply Hmismatch. reflexivity.
  - destruct (AssignmentCommand_contract "n" (intLiteral 5) rootContext
                counterStore) as (_ & _ & Hmutable).
    destruct (Hmutable 0%nat (counter 0)) as (_ & Hvalue);
      [vm_compute; reflexivity | reflexivity |].
    destruct (Hvalue (IntValue 5) counterStore) as (_ & Haccepted);
      [literally|].
    apply Haccepted. reflexivity.
Defined.

(** ** Definitions *)

(** Nothing resolves in the store of a fresh run. *)
Lemma FindVariable_rootStore (frame : CtxRef) (name : string) :
  FindVariable rootStore frame name = None.
Proof. destruct frame as [|frame]; reflexivity. Qed.

(** [let a: Int = 3.5] fails with TypeMismatch, and [a] resolves in no frame
    at the failure; [let a: Int = 3] defines [a]. *)
Lemma DefineVarCommand_contract_witness :
  ToCommand (VarDefStmt "a" false (Some (ElementaryType "Int"))
               (FloatLiteralExpr 3.5))
  = Built (DefineVarCommand "a" false IntType (floatLiteral 3.5))
  /\ (exists s',
        Evaluates (DefineVarCommand "a" false IntType (floatLiteral 3.5))
          rootContext rootStore (Aborted (Panic TypeMismatch) s')
        /\ forall frame, FindVariable s' frame "a" = None)
  /\ (let a := {| varName := "a"; varMutable := false; varType := IntType;
                  varValue := Some (IntValue 3) |} in
      Evaluates (DefineVarCommand "a" false IntType (intLiteral 3))
        rootContext rootStore
        (Return None (DefineVariable rootContext "a" a rootStore))
      /\ FindVariable (DefineVariable rootContext "a" a rootStore)
           rootContext "a" = Some (0%nat, a)).
Proof.
  split; [vm_compute; reflexivity|]. split.
  - destruct (DefineVarCommand_contract "a" false IntType (floatLiteral 3.5)
                rootContext rootStore rootStore (FloatValue 3.5))
      as (Hmismatch & _); [literally|].
    destruct Hmismatch as (s' & Hfail & _ & _ & Hfind); [reflexivity|].
    exists s'. split; [exact Hfail|].
    intros frame. rewrite Hfind. apply FindVariable_rootStore.
  - destruct (DefineVarCommand_contract "a" false IntType (intLiteral 3)
                rootContext rootStore rootStore (IntValue 3))
      as (_ & Haccepted); [literally|].
    destruct Haccepted as (Hdefined & Hfound); [reflexivity|].
    split; [exact Hdefined|]. apply Hfound. vm_compute. lia.
Defined.

(** [let a = if false => 1] and [let a = (let b = 1)] stop with the nil
    dereference fault, and so does [n = if false => 1] after
    [let mut n = 0]. *)
Lemma absent_value_is_dereferenced_witness :
  Evaluates (DefineVarCommand "a" false AnyType ifWithoutElse)
    rootContext rootStore (Aborted NilDereference rootStore)
  /\ Evaluates (DefineVarCommand "a" false AnyType
                  (DefineVarCommand "b" false AnyType (intLiteral 1)))
       rootContext rootStore
       (Aborted NilDereference
          (DefineVariable rootContext "b"
             {| varName := "b"; varMutable := false; varType := AnyType;
                varValue := Some (IntValue 1) |} rootStore))
  /\ Evaluates (AssignmentCommand "n" ifWithoutElse)
       rootContext counterStore (Aborted NilDereference counterStore).
Proof.
  repeat split.
  - destruct (absent_value_is_dereferenced "a" ifWithoutElse rootContext
                rootStore rootStore) as (Hdefine & _);
      [exists 2%nat; reflexivity|].
    apply Hdefine. reflexivity.
  - destruct (absent_value_is_dereferenced "a"
                (DefineVarCommand "b" false AnyType (intLiteral 1)) rootContext
                rootStore
                (DefineVariable rootContext "b"
                   {| varName := "b"; varMutable := false; varType := AnyType;
                      varValue := Some (IntValue 1) |} rootStore))
      as (Hdefine & _); [exists 2%nat; reflexivity|].
    apply Hdefine. reflexivity.
  - destruct (absent_value_is_dereferenced "n" ifWithoutElse rootContext
                counterStore counterStore) as (_ & Hassign & _);
      [exists 2%nat; reflexivity|].
    apply (Hassign 0%nat (counter 0)); [vm_compute| |]; reflexivity.
Defined.

(** * Invariants of the evaluator *)

(** ** A proof rule for relations between the store before and after *)

Section Invariant.

(** [R s s'] relates a store to a later one.  It is kept by every step that
    touches the store: allocating a frame, creating a variable whose value
    its declared type accepts, and writing an accepted value to a mutable
    variable that was found before the value was evaluated. *)
Variable R : Store -> Store -> Prop.
Hypothesis R_refl : forall s, R s s.
Hypothesis R_trans : forall s1 s2 s3, R s1 s2 -> R s2 s3 -> R s1 s3.
Hypothesis R_alloc : forall fr s, R s (allocContext fr s).2.
Hypothesis R_define : forall ctx name mutable ty v s,
  Accepts ty (valueType v) = true ->
  R s (DefineVariable ctx name
         {| varName := name; varMutable := mutable; varType := ty;
            varValue := Some v |} s).
Hypothesis R_assign : forall s s1 ref variable v,
  cells s !! ref = Some variable ->
  varMutable variable = true ->
  Accepts (varType variable) (valueType v) = true ->
  R s s1 -> R s1 (assignCell ref (Some v) s1).

Definition holds {A : Type} (m : Eval A) : Prop :=
  forall s o, m s = Some o -> R s (finalStore o).

Lemma holds_ret {A : Type} (a : A) : holds (ret a).
Proof. intros s o [= <-]. apply R_refl. Qed.

Lemma holds_abort {A : Type} (e : Abort) : holds (abort (A := A) e).
Proof. intros s o [= <-]. apply R_refl. Qed.

Lemma holds_bind {A B : Type} (m : Eval A) (k : A -> Eval B) :
  holds m -> (forall a, holds (k a)) -> holds (bind m k).
Proof.
  intros Hm Hk s o H. apply bind_Some in H as ([a s'|e s'] & Hr & Ho).
  - eapply R_trans; [apply (Hm _ _ Hr) | apply (Hk _ _ _ Ho)].
  - subst o. apply (Hm _ _ Hr).
Qed.

Section Step.

Variable e : Command -> CtxRef -> Eval (option Value).
Hypothesis He : forall c ctx, holds (e c ctx).

Lemma execArgs_holds args ctx : holds (execArgs e args ctx).
Proof.
  induction args as [|a args IH]; simpl; [apply holds_ret|].
  apply holds_bind; [apply He|]. intros v.
  apply holds_bind; [exact IH|]. intros vs. apply holds_ret.
Qed.

Lemma execLines_holds lines ctx last : holds (execLines e lines ctx last).
Proof.
  revert last. induction lines as [|l lines IH]; intros last; simpl;
    [apply holds_ret|].
  apply holds_bind; [apply He | exact IH].
Qed.

Lemma Function_Exec_holds f ctx receiver args :
  holds (Function_Exec e f ctx receiver args).
Proof.
  unfold Function_Exec.
  destruct (negb _); [apply holds_abort|].
  apply holds_bind; [apply execArgs_holds|]. intros vs.
  apply holds_bind; [|intros c; apply He].
  intros s o [= <-]. apply R_alloc.
Qed.

Lemma DefineVarCommand_Exec_holds name mutable ty value ctx :
  holds (DefineVarCommand_Exec e name mutable ty value ctx).
Proof.
  unfold DefineVarCommand_Exec.
  apply holds_bind; [apply He|]. intros [v|]; [|apply holds_abort].
  destruct (Accepts ty (valueType v)) eqn:Ha; simpl; [|apply holds_abort].
  apply holds_bind; [|intros; apply holds_ret].
  intros s o [= <-]. apply R_define, Ha.
Qed.

Lemma AssignmentCommand_Exec_holds name value ctx :
  holds (AssignmentCommand_Exec e name value ctx).
Proof.
  intros s o H. unfold AssignmentCommand_Exec in H.
  unfold bind at 1, get in H.
  destruct (FindVariable s ctx name) as [[ref variable]|] eqn:Hf;
    [|injection H as <-; apply R_refl].
  destruct (varMutable variable) eqn:Hm; simpl in H;
    [|injection H as <-; apply R_refl].
  apply bind_Some in H as ([a s1|err s1] & Hr & Ho);
    [|subst o; apply (He _ _ _ _ Hr)].
  pose proof (He _ _ _ _ Hr) as Hs1. simpl in Hs1.
  destruct a as [v|]; [|injection Ho as <-; exact Hs1].
  destruct (Accepts (varType variable) (valueType v)) eqn:Ha; simpl in Ho;
    [|injection Ho as <-; exact Hs1].
  injection Ho as <-. simpl.
  eapply R_trans; [exact Hs1|].
  eapply R_assign; eauto using FindVariable_cell.
Qed.

Lemma Command_Exec_holds c ctx : holds (Command_Exec e c ctx).
Proof.
  destruct c; simpl.
  - apply DefineVarCommand_Exec_holds.
  - apply AssignmentCommand_Exec_holds.
  - unfold VariableCommand_Exec.
    apply holds_bind; [intros s o [= <-]; apply R_refl|]. intros s.
    destruct (FindVariable s ctx Var) as [[ref var]|]; [apply holds_ret|].
    destruct (FindParameter s ctx Var); [apply holds_ret | apply holds_abort].
  - unfold InvocationCommand_Exec.
    apply holds_bind; [apply He|]. intros [v|]; [|apply holds_abort].
    destruct (asFunction _) as [fn|]; [|apply holds_abort].
    destruct (asContextCommand _) as [[r x]|];
      [|apply Function_Exec_holds].
    apply holds_bind; [apply He|]. intros [rv|]; [|apply holds_abort].
    destruct (_ !! _); [|apply holds_abort].
    apply holds_bind; [apply He|]. intros ?. apply Function_Exec_holds.
  - apply holds_ret.
  - unfold BinaryOperatorCommand_Exec.
    apply holds_bind; [apply He|]. intros l.
    apply holds_bind; [apply He|]. intros r.
    unfold apply_op. destruct l as [l|]; [|apply holds_abort].
    destruct (asInt64 _); [|apply holds_abort].
    destruct r as [r|]; [|apply holds_abort].
    destruct (asInt64 _); [|apply holds_abort].
    unfold arith. destruct op; try apply holds_ret.
    destruct (Z.eqb _ _); [apply holds_abort | apply holds_ret].
  - apply execLines_holds.
  - unfold ContextCommand_Exec.
    apply holds_bind; [apply He|]. intros [rv|]; [|apply holds_abort].
    destruct (_ !! _); [apply holds_ret | apply holds_abort].
  - unfold IfElseCommand_Exec.
    apply holds_bind; [apply He|]. intros [cv|]; [|apply holds_abort].
    destruct (asBool _) as [[|]|]; [apply He | | apply holds_abort].
    destruct elseBranch; [apply He | apply holds_ret].
Qed.

End Step.

Lemma Exec_holds n c ctx : holds (Exec n c ctx).
Proof.
  revert c ctx. induction n as [|n IH]; intros c ctx.
  - intros s o H. discriminate H.
  - apply Command_Exec_holds, IH.
Qed.

End Invariant.

(** ** Immutable variables *)

(** [frozen s s']: every variable of [s] is still there in [s'] with its
    name, mutability and declared type, and an immutable one with its value
    too. *)
Definition frozen (s s' : Store) : Prop :=
  forall r x, cells s !! r = Some x ->
    exists x', cells s' !! r = Some x'
      /\ varName x' = varName x
      /\ varMutable x' = varMutable x
      /\ varType x' = varType x
      /\ (varMutable x = false -> x' = x).

Lemma frozen_refl s : frozen s s.
Proof. intros r x H. exists x. auto. Qed.

Lemma frozen_trans s1 s2 s3 : frozen s1 s2 -> frozen s2 s3 -> frozen s1 s3.
Proof.
  intros H12 H23 r x H.
  destruct (H12 r x H) as (x2 & H2 & Hn2 & Hm2 & Ht2 & Hv2).
  destruct (H23 r x2 H2) as (x3 & H3 & Hn3 & Hm3 & Ht3 & Hv3).
  exists x3. repeat split; try congruence.
  intros Hx. rewrite Hv3, Hv2; congruence.
Qed.

Lemma frozen_append s cs v :
  frozen s {| contexts := cs; cells := cells s ++ [v] |}.
Proof.
  intros r x H. exists x. simpl. split; [|auto].
  apply lookup_app_l_Some, H.
Qed.

Lemma frozen_assign s s1 ref variable v :
  cells s !! ref = Some variable ->
  varMutable variable = true ->
  frozen s s1 -> frozen s1 (assignCell ref v s1).
Proof.
  intros Hc Hm Hs r x H. simpl. rewrite list_lookup_alter.
  case_decide as Hr; [|exists x; auto].
  subst r. rewrite H. exists (setValue v x). simpl.
  repeat split. intros Hx.
  destruct (Hs ref variable Hc) as (x' & Hx' & _ & Hm' & _).
  congruence.
Qed.

(** The root store after [let a = 1] and [let mut n = 0]. *)
Definition storeWithAN : Store :=
  DefineVariable rootContext "n" (counter 0) storeWithA.



(** ** Declared types *)

(** A store is well typed when every variable holds a value whose type the
    declared type of the variable accepts. *)
Definition wellTyped (s : Store) : Prop :=
  forall r x, cells s !! r = Some x ->
    exists v, varValue x = Some v /\ Accepts (varType x) (valueType v) = true.

Definition typed (s s' : Store) : Prop :=
  stable s s' /\ (wellTyped s -> wellTyped s').

Lemma typed_refl s : typed s s.
Proof. split; [apply stable_refl | auto]. Qed.

Lemma typed_trans s1 s2 s3 : typed s1 s2 -> typed s2 s3 -> typed s1 s3.
Proof.
  intros [H12 W12] [H23 W23]. split; [eapply stable_trans; eauto | auto].
Qed.

Lemma typed_define ctx name mutable ty v s :
  Accepts ty (valueType v) = true ->
  typed s (DefineVariable ctx name
             {| varName := name; varMutable := mutable; varType := ty;
                varValue := Some v |} s).
Proof.
  intros Ha. split; [apply stable_DefineVariable|].
  intros Hw r x. simpl. intros H.
  apply lookup_app_Some in H as [H | [_ H]]; [apply (Hw r x H)|].
  apply list_lookup_singleton_Some in H as [_ <-]. simpl. eauto.
Qed.

Lemma typed_assign s s1 ref variable v :
  cells s !! ref = Some variable ->
  Accepts (varType variable) (valueType v) = true ->
  typed s s1 -> typed s1 (assignCell ref (Some v) s1).
Proof.
  intros Hc Ha [Hs _]. split; [apply stable_assignCell|].
  intros Hw r x. simpl. rewrite list_lookup_alter.
  case_decide as Hr; [|apply Hw].
  subst r. intros H. apply fmap_Some in H as (x1 & H1 & ->).
  simpl. exists v. split; [reflexivity|].
  destruct (Hs ref variable Hc) as (x' & Hx' & _ & _ & Ht).
  assert (x' = x1) as -> by congruence. rewrite Ht. exact Ha.
Qed.


Lemma wellTyped_storeWithI : wellTyped storeWithI.
Proof.
  intros r x H. destruct r as [|r]; [|destruct r; discriminate H].
  injection H as <-. exists (IntValue 0). split; reflexivity.
Qed.


(** * Blocks *)

Lemma execLines_app e xs ys ctx last s :
  execLines e (xs ++ ys) ctx last s
  = bind (execLines e xs ctx last) (fun v => execLines e ys ctx v) s.
Proof.
  revert last s. induction xs as [|x xs IH]; intros last s; simpl;
    [reflexivity|].
  unfold bind. destruct (e x ctx s) as [[v s1|err s1]|];
    [|reflexivity|reflexivity].
  rewrite IH. reflexivity.
Qed.

(** X3.  A block runs its lines in order in the store the lines before have
    left: a block that is aborted stays aborted when lines are added after
    it, in the same store, so no later line is run; a block that returns,
    followed by further lines, ends as those lines do when started in the
    store the first part left; and the empty block returns no value. *)
Theorem BlockCommand_append (xs : list Command) (ctx : CtxRef) (s : Store) :
  Evaluates (BlockCommand []) ctx s (Return None s)
  /\ (forall e s1 ys,
      Evaluates (BlockCommand xs) ctx s (Aborted e s1) ->
      Evaluates (BlockCommand (xs ++ ys)) ctx s (Aborted e s1))
  /\ (forall v s1 y ys o,
      Evaluates (BlockCommand xs) ctx s (Return v s1) ->
      Evaluates (BlockCommand (y :: ys)) ctx s1 o ->
      Evaluates (BlockCommand (xs ++ y :: ys)) ctx s o).
Proof.
  split; [exists 1%nat; reflexivity|]. split.
  - intros e s1 ys Hx. apply Evaluates_inv in Hx as [n Hn]. simpl in Hn.
    exists (S n). simpl. unfold BlockCommand_Exec in *.
    rewrite execLines_app. unfold bind. rewrite Hn. reflexivity.
  - intros v s1 y ys o Hx Hy.
    apply Evaluates_inv in Hx as [n Hn]. apply Evaluates_inv in Hy as [m Hm].
    simpl in Hn, Hm. unfold BlockCommand_Exec in *.
    apply (execLines_mono _ (Exec (n + m))) in Hn;
      [|apply Exec_le; lia].
    apply (execLines_mono _ (Exec (n + m))) in Hm;
      [|apply Exec_le; lia].
    exists (S (n + m)). simpl. unfold BlockCommand_Exec.
    rewrite execLines_app. unfold bind at 1. rewrite Hn. exact Hm.
Qed.

(** X4.  A block opens no scope of its own: a block of one line ends exactly
    as that line does when run directly in the context of the block, with
    the same result and the same store.  A variable defined inside a block
    is a variable of the enclosing frame. *)
Theorem BlockCommand_single (c : Command) (ctx : CtxRef) (s : Store)
    (o : Outcome (option Value)) :
  Evaluates (BlockCommand [c]) ctx s o <-> Evaluates c ctx s o.
Proof.
  assert (Hb : forall n, Command_Exec (Exec n) (BlockCommand [c]) ctx s
                         = Exec n c ctx s).
  { intros n. simpl. unfold BlockCommand_Exec. simpl. unfold bind.
    destruct (Exec n c ctx s) as [[v s1|e s1]|]; reflexivity. }
  split.
  - intros H. apply Evaluates_inv in H as [n Hn]. rewrite Hb in Hn.
    exists n. exact Hn.
  - intros [n Hn]. exists (S n). simpl. rewrite <- Hn. apply Hb.
Qed.

(** * Invocation and member access: failures *)

(** X5.  An invocation evaluates the invoked command first.  If that is
    aborted, so is the invocation; if it produces no value, the invocation
    stops with the nil dereference fault; if it produces a value whose
    payload is not a function, the invocation fails with NotInvokable.  In
    all three cases the store is the one the invoked command left, whatever
    the arguments are: no argument has been evaluated. *)
Theorem InvocationCommand_not_invokable (invoking : Command)
    (args : list Command) (ctx : CtxRef) (s : Store) :
  let c := InvocationCommand invoking args in
  (forall e s1,
      Evaluates invoking ctx s (Aborted e s1) ->
      Evaluates c ctx s (Aborted e s1))
  /\ (forall s1,
      Evaluates invoking ctx s (Return None s1) ->
      Evaluates c ctx s (Aborted NilDereference s1))
  /\ (forall v s1,
      Evaluates invoking ctx s (Return (Some v) s1) ->
      asFunction (valuePayload v) = None ->
      Evaluates c ctx s (Aborted (Panic NotInvokable) s1)).
Proof.
  intros c. repeat split.
  - intros e s1 [n Hn]. exists (S n). simpl. unfold InvocationCommand_Exec.
    apply bind_Exec_aborted, Hn.
  - intros s1 [n Hn]. exists (S n). simpl. unfold InvocationCommand_Exec.
    along Hn. reflexivity.
  - intros v s1 [n Hn] Hf. exists (S n). simpl.
    unfold InvocationCommand_Exec. along Hn. rewrite Hf. reflexivity.
Qed.

(** [3()], [(if false => 1)()] and [q()] with [q] undefined, each with the
    argument [n = 5], after [let mut n = 0]: [n] stays [0]. *)
Lemma InvocationCommand_not_invokable_witness :
  let args := [AssignmentCommand "n" (intLiteral 5)] in
  Evaluates (InvocationCommand (intLiteral 3) args) rootContext counterStore
    (Aborted (Panic NotInvokable) counterStore)
  /\ Evaluates (InvocationCommand ifWithoutElse args) rootContext counterStore
       (Aborted NilDereference counterStore)
  /\ Evaluates (InvocationCommand (VariableCommand "q") args) rootContext
       counterStore (Aborted (Panic UndefinedVariable) counterStore).
Proof.
  repeat split.
  - destruct (InvocationCommand_not_invokable (intLiteral 3)
                [AssignmentCommand "n" (intLiteral 5)] rootContext counterStore)
      as (_ & _ & Hvalue).
    apply (Hvalue (IntValue 3)); [literally | reflexivity].
  - destruct (InvocationCommand_not_invokable ifWithoutElse
                [AssignmentCommand "n" (intLiteral 5)] rootContext counterStore)
      as (_ & Hnil & _).
    apply Hnil. exists 2%nat. reflexivity.
  - destruct (InvocationCommand_not_invokable (VariableCommand "q")
                [AssignmentCommand "n" (intLiteral 5)] rootContext counterStore)
      as (Habort & _).
    apply Habort. exists 1%nat. vm_compute. reflexivity.
Defined.

(** X6.  A member access evaluates its receiver once and leaves the store as
    the receiver left it.  A receiver that is aborted aborts the access; a
    receiver that produces no value stops it with the nil dereference fault;
    a receiver whose type has no member function of the name makes it fail
    with UndefinedMember; otherwise the result is a value that wraps the
    member function, and the function has not been invoked. *)
Theorem ContextCommand_contract (receiver : Command) (name : string)
    (ctx : CtxRef) (s : Store) :
  let c := ContextCommand receiver name in
  (forall e s1,
      Evaluates receiver ctx s (Aborted e s1) ->
      Evaluates c ctx s (Aborted e s1))
  /\ (forall s1,
      Evaluates receiver ctx s (Return None s1) ->
      Evaluates c ctx s (Aborted NilDereference s1))
  /\ (forall r s1,
      Evaluates receiver ctx s (Return (Some r) s1) ->
      (typeFunctions (valueType r) !! name = None ->
         Evaluates c ctx s (Aborted (Panic UndefinedMember) s1))
      /\ (forall f, typeFunctions (valueType r) !! name = Some f ->
          exists member,
            Evaluates c ctx s (Return (Some member) s1)
            /\ asFunction (valuePayload member) = Some f)).
Proof.
  intros c. repeat split.
  - intros e s1 [n Hn]. exists (S n). simpl. unfold ContextCommand_Exec.
    apply bind_Exec_aborted, Hn.
  - intros s1 [n Hn]. exists (S n). simpl. unfold ContextCommand_Exec.
    along Hn. reflexivity.
  - intros Hf. destruct H as [n Hn]. exists (S n). simpl.
    unfold ContextCommand_Exec. along Hn. rewrite Hf. reflexivity.
  - intros f Hf. destruct H as [n Hn].
    exists (MkValue (FunctionType (Some name) f) (PFunction f)).
    split; [|reflexivity].
    exists (S n). simpl. unfold ContextCommand_Exec. along Hn. rewrite Hf.
    reflexivity.
Qed.

(** [receiver.g] where the type of the receiver has only [f];
    [(if false => 1).f]; [receiver.f]. *)
Lemma ContextCommand_contract_witness :
  Evaluates (ContextCommand (LiteralCommand receiverValue) "g") rootContext
    rootStore (Aborted (Panic UndefinedMember) rootStore)
  /\ Evaluates (ContextCommand ifWithoutElse "f") rootContext rootStore
       (Aborted NilDereference rootStore)
  /\ exists member,
       Evaluates (ContextCommand (LiteralCommand receiverValue) "f")
         rootContext rootStore (Return (Some member) rootStore)
       /\ asFunction (valuePayload member) = Some memberOne.
Proof.
  repeat split.
  - destruct (ContextCommand_contract (LiteralCommand receiverValue) "g"
                rootContext rootStore) as (_ & _ & Hvalue).
    destruct (Hvalue receiverValue rootStore) as (Hmissing & _); [literally|].
    apply Hmissing. vm_compute. reflexivity.
  - destruct (ContextCommand_contract ifWithoutElse "f" rootContext rootStore)
      as (_ & Hnil & _).
    apply Hnil. exists 2%nat. reflexivity.
  - destruct (ContextCommand_contract (LiteralCommand receiverValue) "f"
                rootContext rootStore) as (_ & _ & Hvalue).
    destruct (Hvalue receiverValue rootStore) as (_ & Hfound); [literally|].
    apply Hfound. vm_compute. reflexivity.
Defined.

(** X7.  A member call whose receiver has no member function of the name
    fails with UndefinedMember as soon as the invoked member access has been
    evaluated: the receiver has been run once, and no argument has been
    evaluated. *)
Theorem member_call_undefined_member (receiver : Command) (name : string)
    (args : list Command) (ctx : CtxRef) (s s1 : Store) (r : Value) :
  Evaluates receiver ctx s (Return (Some r) s1) ->
  typeFunctions (valueType r) !! name = None ->
  Evaluates (InvocationCommand (ContextCommand receiver name) args) ctx s
    (Aborted (Panic UndefinedMember) s1).
Proof.
  intros [n Hn] Hf. exists (S (S n)).
  change (InvocationCommand_Exec (Exec (S n)) (ContextCommand receiver name)
            args ctx s = Some (Aborted (Panic UndefinedMember) s1)).
  unfold InvocationCommand_Exec.
  apply bind_Exec_aborted. simpl. unfold ContextCommand_Exec.
  along Hn. rewrite Hf. reflexivity.
Qed.

(** [countingReceiver.g()] after [let mut n = 0]: [n] is [1] at the
    failure. *)
Lemma member_call_undefined_member_witness :
  Evaluates (InvocationCommand (ContextCommand countingReceiver "g") [])
    rootContext counterStore
    (Aborted (Panic UndefinedMember)
       (assignCell 0 (Some (IntValue 1)) counterStore)).
Proof.
  apply (member_call_undefined_member countingReceiver "g" [] rootContext
           counterStore _ receiverValue).
  - exists 4%nat. vm_compute. reflexivity.
  - vm_compute. reflexivity.
Defined.

(** [let x = 1] inside a block, then [x]: the block ends with [Int(1)], and
    [x] is a variable of the root frame afterwards; a failing first line
    keeps the second from running. *)
Lemma BlockCommand_append_witness :
  let define := DefineVarCommand "x" false AnyType (intLiteral 1) in
  let x := {| varName := "x"; varMutable := false; varType := AnyType;
              varValue := Some (IntValue 1) |} in
  Evaluates (BlockCommand ([define] ++ [VariableCommand "x"])) rootContext
    rootStore
    (Return (Some (IntValue 1)) (DefineVariable rootContext "x" x rootStore))
  /\ Evaluates (BlockCommand ([VariableCommand "q"] ++ [define])) rootContext
       rootStore (Aborted (Panic UndefinedVariable) rootStore).
Proof.
  split.
  - destruct (BlockCommand_append
                [DefineVarCommand "x" false AnyType (intLiteral 1)]
                rootContext rootStore) as (_ & _ & Hthen).
    eapply Hthen; [exists 3%nat; reflexivity|].
    exists 2%nat. vm_compute. reflexivity.
  - destruct (BlockCommand_append [VariableCommand "q"] rootContext rootStore)
      as (_ & Hstop & _).
    apply Hstop. exists 2%nat. vm_compute. reflexivity.
Defined.

(** * Definitions and assignments as values *)

(** A definition and an assignment return nil whenever they return. *)
Lemma DefineVarCommand_returns_nil name mutable ty value ctx s result s' :
  Evaluates (DefineVarCommand name mutable ty value) ctx s (Return result s') ->
  result = None.
Proof.
  intros H. apply Evaluates_inv in H as [n Hn]. simpl in Hn.
  unfold DefineVarCommand_Exec in Hn.
  apply bind_Some in Hn as ([[v|] s1|e s1] & _ & Hk); try discriminate Hk.
  destruct (negb _); [discriminate Hk|].
  injection Hk as <- _. reflexivity.
Qed.

Lemma AssignmentCommand_returns_nil name value ctx s result s' :
  Evaluates (AssignmentCommand name value) ctx s (Return result s') ->
  result = None.
Proof.
  intros H. apply Evaluates_inv in H as [n Hn]. simpl in Hn.
  unfold AssignmentCommand_Exec in Hn. unfold bind at 1, get in Hn.
  destruct (FindVariable s ctx name) as [[ref variable]|];
    [|discriminate Hn].
  destruct (negb _); [discriminate Hn|].
  apply bind_Some in Hn as ([[v|] s1|e s1] & _ & Hk); try discriminate Hk.
  destruct (negb _); [discriminate Hk|].
  injection Hk as <- _. reflexivity.
Qed.

(** X8.  A definition or an assignment used as the value of another
    definition or assignment never lets the outer command return: the inner
    one produces no value, which the outer one dereferences.  So a chained
    assignment such as [a = b = 1], and [let a = (b = 1)], never succeed. *)
Theorem definition_as_value_never_returns (inner : Command) :
  (exists n m t v, inner = DefineVarCommand n m t v)
  \/ (exists n v, inner = AssignmentCommand n v) ->
  forall name mutable ty ctx s result s',
    ~ Evaluates (DefineVarCommand name mutable ty inner) ctx s
        (Return result s')
    /\ ~ Evaluates (AssignmentCommand name inner) ctx s (Return result s').
Proof.
  intros Hinner name mutable ty ctx s result s'.
  assert (Hnil : forall n ctx s v s1,
            Exec n inner ctx s = Some (Return v s1) -> v = None).
  { intros n ctx0 s0 v s1 Hn.
    destruct Hinner as [(n0 & m0 & t0 & v0 & ->) | (n0 & v0 & ->)].
    - eapply DefineVarCommand_returns_nil. exists n. exact Hn.
    - eapply AssignmentCommand_returns_nil. exists n. exact Hn. }
  split; intros H; apply Evaluates_inv in H as [n Hn]; simpl in Hn.
  - unfold DefineVarCommand_Exec in Hn.
    apply bind_Some in Hn as ([v s1|e s1] & Hr & Hk); [|discriminate Hk].
    rewrite (Hnil _ _ _ _ _ Hr) in Hk. discriminate Hk.
  - unfold AssignmentCommand_Exec in Hn. unfold bind at 1, get in Hn.
    destruct (FindVariable s ctx name) as [[ref variable]|];
      [|discriminate Hn].
    destruct (negb _); [discriminate Hn|].
    apply bind_Some in Hn as ([v s1|e s1] & Hr & Hk); [|discriminate Hk].
    rewrite (Hnil _ _ _ _ _ Hr) in Hk. discriminate Hk.
Qed.

(** After [let mut n = 0]: [n = (n = 1)] stops with the nil dereference
    fault once the inner assignment has been done, and never returns. *)
Lemma definition_as_value_never_returns_witness :
  Evaluates (AssignmentCommand "n" (AssignmentCommand "n" (intLiteral 1)))
    rootContext counterStore
    (Aborted NilDereference (assignCell 0 (Some (IntValue 1)) counterStore))
  /\ ~ Evaluates (AssignmentCommand "n" (AssignmentCommand "n" (intLiteral 1)))
         rootContext counterStore
         (Return None (assignCell 0 (Some (IntValue 1)) counterStore)).
Proof.
  split; [exists 3%nat; vm_compute; reflexivity|].
  apply (definition_as_value_never_returns
           (AssignmentCommand "n" (intLiteral 1))
           (or_intror (ex_intro _ "n" (ex_intro _ (intLiteral 1) eq_refl)))
           "n" false AnyType).
Defined.

(** * Lowering: which trees are lowered *)

(** The operators [ExpressionToCommand] has a case for. *)
Definition supportedOperator (op : Operator) : bool :=
  match op with
  | Add | Subtract | Multiply | Slash => true
  | OtherOperator => false
  end.

(** An annotation that [FromASTType] resolves. *)
Definition resolves (t : option ASTType) : bool :=
  match FromASTType t with
  | Some _ => true
  | None => false
  end.

(** The trees both lowering functions have cases for all the way down:
    no unary, char, collection or map node, no operator without a case, and
    every parameter and return type of a function literal resolved. *)
Fixpoint supportedStmt (statement : Stmt) : bool :=
  match statement with
  | VarDefStmt _ _ _ value => supportedExpr value
  | ExpressionStmt e => supportedExpr e
  | BlockStmt stmts => forallb supportedStmt stmts
  | IfElseStmt cond mainBranch elseBranch =>
      supportedExpr cond
      && (supportedStmt mainBranch
          && match elseBranch with
             | Some e => supportedStmt e
             | None => true
             end)
  end
with supportedExpr (expr : Expr) : bool :=
  match expr with
  | VariableExpr _ | StringLiteralExpr _ | IntegerLiteralExpr _
  | FloatLiteralExpr _ | BooleanLiteralExpr _ => true
  | InvocationExpr invoker arguments =>
      supportedExpr invoker && forallb supportedExpr arguments
  | BinaryExpr lhs op rhs =>
      supportedExpr lhs && (supportedExpr rhs && supportedOperator op)
  | FuncDefExpr arguments returnType statement =>
      forallb (fun parameter => resolves (argType parameter)) arguments
      && (resolves returnType && supportedStmt statement)
  | ContextExpr context _ => supportedExpr context
  | AssignmentExpr _ value => supportedExpr value
  | UnaryExpr _ _ | CharLiteralExpr _ | CollectionExpr _ | MapExpr _ => false
  end.

(** Induction over statements and expressions together. *)
Section TreeInduction.

Variable P : Stmt -> Prop.
Variable Q : Expr -> Prop.

Hypothesis HVarDef : forall i m t v, Q v -> P (VarDefStmt i m t v).
Hypothesis HExpressionStmt : forall e, Q e -> P (ExpressionStmt e).
Hypothesis HBlock : forall l, Forall P l -> P (BlockStmt l).
Hypothesis HIfElse : forall c m e,
  Q c -> P m -> match e with Some x => P x | None => True end ->
  P (IfElseStmt c m e).
Hypothesis HVariable : forall i, Q (VariableExpr i).
Hypothesis HInvocation : forall f args,
  Q f -> Forall Q args -> Q (InvocationExpr f args).
Hypothesis HString : forall v, Q (StringLiteralExpr v).
Hypothesis HInteger : forall v, Q (IntegerLiteralExpr v).
Hypothesis HFloat : forall v, Q (FloatLiteralExpr v).
Hypothesis HBoolean : forall v, Q (BooleanLiteralExpr v).
Hypothesis HBinary : forall l op r, Q l -> Q r -> Q (BinaryExpr l op r).
Hypothesis HFuncDef : forall args rt st, P st -> Q (FuncDefExpr args rt st).
Hypothesis HContext : forall c v, Q c -> Q (ContextExpr c v).
Hypothesis HAssignment : forall i v, Q v -> Q (AssignmentExpr i v).
Hypothesis HUnary : forall op r, Q (UnaryExpr op r).
Hypothesis HChar : forall v, Q (CharLiteralExpr v).
Hypothesis HCollection : forall l, Q (CollectionExpr l).
Hypothesis HMap : forall l, Q (MapExpr l).

Fixpoint Stmt_induction (statement : Stmt) : P statement :=
  match statement with
  | VarDefStmt i m t v => HVarDef i m t v (Expr_induction v)
  | ExpressionStmt e => HExpressionStmt e (Expr_induction e)
  | BlockStmt l =>
      HBlock l
        ((fix each (l : list Stmt) : Forall P l :=
            match l with
            | [] => @List.Forall_nil _ P
            | x :: rest => @List.Forall_cons _ P x rest (Stmt_induction x) (each rest)
            end) l)
  | IfElseStmt c m e =>
      HIfElse c m e (Expr_induction c) (Stmt_induction m)
        (match e as e0 return match e0 with Some x => P x | None => True end
         with
         | Some x => Stmt_induction x
         | None => I
         end)
  end
with Expr_induction (expr : Expr) : Q expr :=
  match expr with
  | VariableExpr i => HVariable i
  | InvocationExpr f args =>
      HInvocation f args (Expr_induction f)
        ((fix each (l : list Expr) : Forall Q l :=
            match l with
            | [] => @List.Forall_nil _ Q
            | x :: rest => @List.Forall_cons _ Q x rest (Expr_induction x) (each rest)
            end) args)
  | StringLiteralExpr v => HString v
  | IntegerLiteralExpr v => HInteger v
  | FloatLiteralExpr v => HFloat v
  | BooleanLiteralExpr v => HBoolean v
  | BinaryExpr l op r => HBinary l op r (Expr_induction l) (Expr_induction r)
  | FuncDefExpr args rt st => HFuncDef args rt st (Stmt_induction st)
  | ContextExpr c v => HContext c v (Expr_induction c)
  | AssignmentExpr i v => HAssignment i v (Expr_induction v)
  | UnaryExpr op r => HUnary op r
  | CharLiteralExpr v => HChar v
  | CollectionExpr l => HCollection l
  | MapExpr l => HMap l
  end.

End TreeInduction.

(** The two ways a lowering fails. *)
Definition loweringFailure (e : Abort) : Prop :=
  e = Panic UnsupportedNode \/ e = NilDereference.

(** [lowers b r]: the lowering result [r] is a command when [b] holds, and
    one of the two failures when it does not. *)
Definition lowers {A : Type} (b : bool) (r : Lowered A) : Prop :=
  if b then exists a, r = Built a
  else exists e, r = Failed e /\ loweringFailure e.

Lemma lowers_andThen {A B : Type} b1 b2 (m : Lowered A) (k : A -> Lowered B) :
  lowers b1 m -> (forall a, lowers b2 (k a)) ->
  lowers (b1 && b2) (andThen m k).
Proof.
  destruct b1; simpl.
  - intros [a ->] Hk. apply Hk.
  - intros (e & -> & He) _. exists e. auto.
Qed.

Lemma lowers_Built {A B : Type} b (m : Lowered A) (f : A -> B) :
  lowers b m -> lowers b (andThen m (fun a => Built (f a))).
Proof.
  destruct b; simpl.
  - intros [a ->]. simpl. eauto.
  - intros (e & -> & He). exists e. auto.
Qed.

Lemma lowers_each {A : Type} (lower : A -> Lowered Command)
    (supported : A -> bool) (l : list A) :
  Forall (fun a => lowers (supported a) (lower a)) l ->
  lowers (forallb supported l)
    ((fix each (l : list A) : Lowered (list Command) :=
        match l with
        | [] => Built []
        | a :: rest =>
            andThen (lower a) (fun c =>
              andThen (each rest) (fun cs => Built (c :: cs)))
        end) l).
Proof.
  induction 1 as [|a rest Ha _ IH]; [exists []; reflexivity|].
  simpl forallb. apply lowers_andThen; [exact Ha|].
  intros c. apply (lowers_Built _ _ (cons c)), IH.
Qed.

Lemma lowers_parameters (arguments : list FunctionArgument) :
  lowers (forallb (fun parameter => resolves (argType parameter)) arguments)
    (lowerParameters arguments).
Proof.
  induction arguments as [|p rest IH]; [exists []; reflexivity|].
  simpl. unfold resolves at 1.
  destruct (FromASTType (argType p)) as [t|]; simpl.
  - apply (lowers_Built _ _ (cons (MkParameter t (argName p)))), IH.
  - exists NilDereference. split; [reflexivity | right; reflexivity].
Qed.

Lemma lowers_ruleOf (op : Operator) : lowers (supportedOperator op) (ruleOf op).
Proof.
  destruct op; simpl; eauto.
  exists (Panic UnsupportedNode). split; [reflexivity | left; reflexivity].
Qed.

(** Every statement is either supported and lowered, or not supported and
    rejected with one of the two failures. *)
Lemma ToCommand_lowers (statement : Stmt) :
  lowers (supportedStmt statement) (ToCommand statement).
Proof.
  apply (Stmt_induction
           (fun s => lowers (supportedStmt s) (ToCommand s))
           (fun e => lowers (supportedExpr e) (ExpressionToCommand e)));
    try (intros; simpl; eauto; fail).
  - intros i m t v Hv. simpl.
    apply (lowers_Built _ _ (DefineVarCommand i m _)), Hv.
  - intros l Hl. simpl.
    apply (lowers_Built _ _ BlockCommand), (lowers_each ToCommand), Hl.
  - intros c m e Hc Hm He. simpl.
    apply lowers_andThen; [exact Hc|]. intros condition.
    apply lowers_andThen; [exact Hm|]. intros ifBranch.
    destruct e as [x|]; [|exists (IfElseCommand condition ifBranch None);
                           reflexivity].
    apply (lowers_Built _ _ (fun x' => IfElseCommand condition ifBranch (Some x'))),
      He.
  - intros f args Hf Hargs. simpl.
    apply lowers_andThen; [exact Hf|]. intros fn.
    apply (lowers_Built _ _ (InvocationCommand fn)),
      (lowers_each ExpressionToCommand), Hargs.
  - intros l op r Hl Hr. simpl.
    apply lowers_andThen; [exact Hl|]. intros lhsCmd.
    apply lowers_andThen; [exact Hr|]. intros rhsCmd.
    apply (lowers_Built _ _ (fun rule => BinaryOperatorCommand lhsCmd rule rhsCmd)),
      lowers_ruleOf.
  - intros args rt st Hst. simpl.
    apply lowers_andThen; [apply lowers_parameters|]. intros params.
    unfold resolves. destruct (FromASTType rt) as [t|]; simpl.
    + apply (lowers_Built _ _
               (fun body =>
                  LiteralCommand
                    (MkValue
                       (FunctionType None
                          (MkFunction (MkSignature params t) body None))
                       (PFunction
                          (MkFunction (MkSignature params t) body None))))),
        Hst.
    + exists NilDereference. split; [reflexivity | right; reflexivity].
  - intros c v Hc. simpl.
    apply (lowers_Built _ _ (fun c' => ContextCommand c' v)), Hc.
  - intros i v Hv. simpl.
    apply (lowers_Built _ _ (AssignmentCommand i)), Hv.
  - intros. exists (Panic UnsupportedNode). split; [reflexivity | left; reflexivity].
  - intros. exists (Panic UnsupportedNode). split; [reflexivity | left; reflexivity].
  - intros. exists (Panic UnsupportedNode). split; [reflexivity | left; reflexivity].
  - intros. exists (Panic UnsupportedNode). split; [reflexivity | left; reflexivity].
Qed.

Lemma ExpressionToCommand_lowers (expr : Expr) :
  lowers (supportedExpr expr) (ExpressionToCommand expr).
Proof. exact (ToCommand_lowers (ExpressionStmt expr)). Qed.

(** X9.  Lowering fails in two ways only: with the final panic of the two
    functions, for a node or an operator without a case, or with the nil
    dereference fault, for a function literal with an unresolved parameter
    or return type.  This holds for statements and for expressions. *)
Theorem lowering_fails_in_two_ways :
  (forall statement e,
      ToCommand statement = Failed e ->
      e = Panic UnsupportedNode \/ e = NilDereference)
  /\ (forall expr e,
      ExpressionToCommand expr = Failed e ->
      e = Panic UnsupportedNode \/ e = NilDereference).
Proof.
  split.
  - intros statement e H. pose proof (ToCommand_lowers statement) as Hl.
    rewrite H in Hl. destruct (supportedStmt statement); simpl in Hl.
    + destruct Hl as [c Hc]. discriminate Hc.
    + destruct Hl as (e' & [= <-] & He). exact He.
  - intros expr e H. pose proof (ExpressionToCommand_lowers expr) as Hl.
    rewrite H in Hl. destruct (supportedExpr expr); simpl in Hl.
    + destruct Hl as [c Hc]. discriminate Hc.
    + destruct Hl as (e' & [= <-] & He). exact He.
Qed.

(** X10.  A statement is lowered to a command exactly when it is supported
    all the way down: it has no unary, char, collection or map node, every
    binary operator is one of [+ - * /], and every parameter and return type
    of every function literal is resolved by [FromASTType]. *)
Theorem ToCommand_succeeds_iff_supported (statement : Stmt) :
  (exists command, ToCommand statement = Built command)
  <-> supportedStmt statement = true.
Proof.
  pose proof (ToCommand_lowers statement) as Hl.
  destruct (supportedStmt statement); simpl in Hl.
  - split; [reflexivity | intros _; exact Hl].
  - destruct Hl as (e & He & _). split; [|discriminate].
    intros [c Hc]. rewrite He in Hc. discriminate Hc.
Qed.

(** * Lowering and evaluation of integer arithmetic *)

(** Integer arithmetic: literals and binary operators. *)
Inductive Arithmetic : Set :=
  | Literal (n : Z)
  | Binary (lhs : Arithmetic) (op : Operator) (rhs : Arithmetic).

(** The expression tree of an arithmetic term. *)
Fixpoint toExpr (a : Arithmetic) : Expr :=
  match a with
  | Literal n => IntegerLiteralExpr n
  | Binary lhs op rhs => BinaryExpr (toExpr lhs) op (toExpr rhs)
  end.

(** The [int64] value of a term: each operation wraps around, [/]
    truncates toward zero; [None] when a division by zero is met. *)
Fixpoint int64Of (a : Arithmetic) : option Z :=
  match a with
  | Literal n => Some n
  | Binary lhs op rhs =>
      match int64Of lhs, int64Of rhs with
      | Some x, Some y =>
          match op with
          | Add => Some (wrap64 (x + y))
          | Subtract => Some (wrap64 (x - y))
          | Multiply => Some (wrap64 (x * y))
          | Slash => if Z.eqb y 0 then None else Some (wrap64 (Z.quot x y))
          | OtherOperator => None
          end
      | _, _ => None
      end
  end.

(** X11.  Lowering and evaluation agree with [int64] arithmetic: an
    expression built from integer literals and the operators [+ - * /] is
    lowered to a command that, in every context and store, returns the Int
    value of the expression and leaves the store as it is, or stops with the
    host's division fault when a division by zero is met. *)
Theorem arithmetic_is_evaluated (a : Arithmetic) :
  supportedExpr (toExpr a) = true ->
  exists command,
    ExpressionToCommand (toExpr a) = Built command
    /\ forall ctx s,
        Evaluates command ctx s
          match int64Of a with
          | Some z => Return (Some (IntValue z)) s
          | None => Aborted DivideByZero s
          end.
Proof.
  induction a as [n | lhs IHl op rhs IHr]; intros Hs.
  - exists (intLiteral n). split; [reflexivity|]. intros ctx s.
    exists 1%nat. reflexivity.
  - simpl in Hs. apply andb_prop in Hs as [Hl Hs].
    apply andb_prop in Hs as [Hr Hop].
    destruct (IHl Hl) as (cl & Hcl & Hel). destruct (IHr Hr) as (cr & Hcr & Her).
    pose proof (lowers_ruleOf op) as Hrule. rewrite Hop in Hrule.
    destruct Hrule as [rule Hrule].
    exists (BinaryOperatorCommand cl rule cr). split.
    { simpl. rewrite Hcl, Hcr. simpl. rewrite Hrule. reflexivity. }
    intros ctx s. specialize (Hel ctx s). specialize (Her ctx s). simpl.
    destruct (int64Of lhs) as [x|].
    + destruct (Exec_common Hel Her) as (n & Hn & Hn').
      destruct (int64Of rhs) as [y|].
      * assert (Hc : forall o, arith rule x y s = Some o ->
                  Evaluates (BinaryOperatorCommand cl rule cr) ctx s o).
        { intros o Ho. exists (S n). simpl. unfold BinaryOperatorCommand_Exec.
          along Hn. along Hn'. exact Ho. }
        destruct op; try discriminate Hop; injection Hrule as <-; apply Hc;
          simpl; try reflexivity.
        destruct (Z.eqb y 0); reflexivity.
      * exists (S n). simpl. unfold BinaryOperatorCommand_Exec.
        along Hn. apply bind_Exec_aborted, Hn'.
    + destruct Hel as [n Hn]. exists (S n). simpl.
      unfold BinaryOperatorCommand_Exec. apply bind_Exec_aborted, Hn.
Qed.

(** [(2 + 3) * 4 - 7 / 2] is [Int(17)]; [1 + 2 / (3 - 3)] stops with the
    division fault. *)
Lemma arithmetic_is_evaluated_witness :
  (exists command,
      ExpressionToCommand
        (toExpr (Binary (Binary (Binary (Literal 2) Add (Literal 3)) Multiply
                           (Literal 4))
                   Subtract (Binary (Literal 7) Slash (Literal 2))))
      = Built command
      /\ forall ctx s,
          Evaluates command ctx s (Return (Some (IntValue 17)) s))
  /\ (exists command,
      ExpressionToCommand
        (toExpr (Binary (Literal 1) Add
                   (Binary (Literal 2) Slash
                      (Binary (Literal 3) Subtract (Literal 3)))))
      = Built command
      /\ forall ctx s, Evaluates command ctx s (Aborted DivideByZero s)).
Proof.
  split.
  - exact (arithmetic_is_evaluated
             (Binary (Binary (Binary (Literal 2) Add (Literal 3)) Multiply
                        (Literal 4))
                Subtract (Binary (Literal 7) Slash (Literal 2))) eq_refl).
  - exact (arithmetic_is_evaluated
             (Binary (Literal 1) Add
                (Binary (Literal 2) Slash
                   (Binary (Literal 3) Subtract (Literal 3)))) eq_refl).
Defined.

(** [-x] is not lowered: [ToCommand] fails with its final panic. *)
Lemma lowering_fails_in_two_ways_witness :
  ToCommand (ExpressionStmt (UnaryExpr Subtract (VariableExpr "x")))
  = Failed (Panic UnsupportedNode)
  /\ (Panic UnsupportedNode = Panic UnsupportedNode
      \/ Panic UnsupportedNode = NilDereference).
Proof.
  split; [reflexivity|].
  destruct lowering_fails_in_two_ways as [Hstmt _].
  apply (Hstmt (ExpressionStmt (UnaryExpr Subtract (VariableExpr "x")))).
  reflexivity.
Defined.

(** * The scanner: what a token takes from the input *)

(** Every rune of a text is in a class. *)
Fixpoint every (class : ascii -> bool) (text : string) : bool :=
  match text with
  | EmptyString => true
  | String ch rest => class ch && every class rest
  end.

Definition isDot (ch : ascii) : bool := Ascii.eqb ch ".".
Definition isQuote (ch : ascii) : bool := Ascii.eqb ch quote.

Lemma Read_skips (ws input : string) :
  every isWhitespace ws = true -> Read (String.append ws input) = Read input.
Proof.
  induction ws as [|ch ws IH]; simpl; [reflexivity|].
  intros H. apply andb_prop in H as [Hch Hws]. rewrite Hch. apply IH, Hws.
Qed.



Lemma readWhile_run (class : ascii -> bool) (run : string) (ch : ascii)
    (rest : string) :
  every class run = true -> class ch = false ->
  readWhile class (String.append run (String ch rest)) = (run, String ch rest).
Proof.
  intros Hrun Hch. induction run as [|c run IH]; simpl.
  - rewrite Hch. reflexivity.
  - simpl in Hrun. apply andb_prop in Hrun as [Hc Hrun]. rewrite Hc.
    rewrite (IH Hrun). reflexivity.
Qed.

Lemma numberLoop_run (digits : string) (ch : ascii) (rest : string)
    (numType : TokenType) :
  every isNumerical digits = true ->
  isNumerical ch = false -> isDot ch = false ->
  numberLoop (String.append digits (String ch rest)) numType
  = (numType, digits, rest).
Proof.
  intros Hrun Hch Hdot. induction digits as [|c digits IH]; simpl.
  - fold (isDot ch). rewrite Hdot, Hch. reflexivity.
  - simpl in Hrun. apply andb_prop in Hrun as [Hc Hrun].
    assert (Hcd : Ascii.eqb c "." = false).
    { destruct (Ascii.eqb_spec c "."); [subst c; discriminate Hc | reflexivity]. }
    rewrite Hcd, Hc. simpl. rewrite (IH Hrun). reflexivity.
Qed.





(** Some rune of a text is in a class. *)
Fixpoint some (class : ascii -> bool) (text : string) : bool :=
  match text with
  | EmptyString => false
  | String ch rest => class ch || some class rest
  end.

Definition isNumberRune (ch : ascii) : bool := isNumerical ch || isDot ch.

Lemma numberLoop_text (input : string) (numType : TokenType) :
  exists buf remaining,
    numberLoop input numType
    = (if some isDot buf then FLOAT else numType, buf, remaining)
    /\ every isNumberRune buf = true.
Proof.
  revert numType. induction input as [|ch rest IH]; intros numType; simpl.
  { exists EmptyString, EmptyString. split; reflexivity. }
  destruct (Ascii.eqb ch ".") eqn:Hdot.
  - destruct (IH FLOAT) as (buf & remaining & -> & Hbuf).
    exists (String ch buf), remaining. simpl.
    assert (Hch : isDot ch = true) by exact Hdot.
    unfold isNumberRune at 1. rewrite Hch, Hbuf, orb_true_r. simpl.
    split; [|reflexivity]. destruct (some isDot buf); reflexivity.
  - destruct (isNumerical ch) eqn:Hnum; simpl.
    + destruct (IH numType) as (buf & remaining & -> & Hbuf).
      exists (String ch buf), remaining. simpl.
      assert (Hch : isDot ch = false) by exact Hdot.
      unfold isNumberRune at 1. rewrite Hch, Hnum, Hbuf. simpl.
      split; reflexivity.
    + exists EmptyString, rest. split; reflexivity.
Qed.


Lemma stringLoop_run (body rest : string) :
  some isQuote body = false ->
  stringLoop (String.append body (String quote rest)) = (body, rest).
Proof.
  intros Hbody. induction body as [|c body IH].
  - reflexivity.
  - simpl in Hbody. apply orb_false_elim in Hbody as [Hc Hbody].
    unfold isQuote in Hc.
    change (stringLoop (String c (String.append body (String quote rest)))
            = (String c body, rest)).
    simpl. rewrite Hc, (IH Hbody). reflexivity.
Qed.

Lemma stringLoop_open (body : string) :
  some isQuote body = false -> stringLoop body = (body, EmptyString).
Proof.
  intros Hbody. induction body as [|c body IH]; [reflexivity|].
  simpl in Hbody. apply orb_false_elim in Hbody as [Hc Hbody].
  unfold isQuote in Hc. simpl. rewrite Hc, (IH Hbody). reflexivity.
Qed.




(** * The table of prefix parselets *)

Module PrefixParslets.

(** The token types that prefix_parslet.go names.  The declaration of
    [lexer.TokenType] is in another file; [OtherToken] stands for every
    token type that prefix_parslet.go does not name. *)
Inductive TokenType : Set :=
  | Identifier | LSquare | RSquare | LBrace | RBrace | LParen | RParen
  | BinaryInt | OctalInt | HexadecimalInt | DecimalInt
  | Float | Char | String | BooleanTrue | BooleanFalse
  | Subtract | Not | If | Else | Arrow | Dot
  | OtherToken.

#[local] Instance TokenType_eq_dec : EqDecision TokenType.
Proof. solve_decision. Defined.

(** The parse functions that [initPrefixParselets] registers;
    [functionGroup] is [resolvingPrefixParslet(functionGroupResolver())]. *)
Inductive PrefixParslet : Set :=
  | parseIdentifier | parseCollection | parseMap | parseInteger
  | parseFloat | parseChar | parseString | functionGroup | parseBoolean
  | parseUnaryExpression | parseIfExpression.

Definition Table : Set := TokenType -> option PrefixParslet.

(** Modelled from the spec: [registerPrefix] is not part of
    prefix_parslet.go.  The parser "maintains a table mapping token kind ->
    prefix parse rule"; registering a rule for a token kind puts it in the
    table, in place of an earlier rule for that kind. *)
Definition registerPrefix (tokenType : TokenType) (parslet : PrefixParslet)
    (prefixParslets : Table) : Table :=
  fun t => if decide (t = tokenType) then Some parslet else prefixParslets t.

Definition initPrefixParselets : Table :=
  let p : Table := fun _ => None in
  let p := registerPrefix Identifier parseIdentifier p in
  let p := registerPrefix LSquare parseCollection p in
  let p := registerPrefix LBrace parseMap p in
  let p := registerPrefix BinaryInt parseInteger p in
  let p := registerPrefix OctalInt parseInteger p in
  let p := registerPrefix HexadecimalInt parseInteger p in
  let p := registerPrefix DecimalInt parseInteger p in
  let p := registerPrefix Float parseFloat p in
  let p := registerPrefix Char parseChar p in
  let p := registerPrefix String parseString p in
  let p := registerPrefix LParen functionGroup p in
  let p := registerPrefix BooleanTrue parseBoolean p in
  let p := registerPrefix BooleanFalse parseBoolean p in
  let p := registerPrefix Subtract parseUnaryExpression p in
  let p := registerPrefix Not parseUnaryExpression p in
  let p := registerPrefix If parseIfExpression p in
  p.

Definition baseOf (tokenType : TokenType) : Z :=
  match tokenType with
  | HexadecimalInt => 16
  | DecimalInt => 10
  | OctalInt => 8
  | BinaryInt => 2
  | _ => -1
  end.

(** X18.  The table of prefix parselets and [baseOf] agree: [parseInteger]
    is the rule of exactly the token types for which [baseOf] gives a base
    that passes the test [base < 2] of [parseInteger], and that base is 2,
    8, 10 or 16; for every other token type [baseOf] gives -1. *)
Theorem parseInteger_tokens_have_a_base (tokenType : TokenType) :
  (initPrefixParselets tokenType = Some parseInteger
   <-> (2 <= baseOf tokenType)%Z)
  /\ (baseOf tokenType = -1 \/ In (baseOf tokenType) [2; 8; 10; 16])%Z.
Proof.
  destruct tokenType; vm_compute;
    (split; [split; intros H; congruence || (exfalso; auto) | tauto]).
Qed.

End PrefixParslets.
